(** * The DevSecOps demo service ([app/app.py]) and its specification

    The program is a Flask application with three constant JSON endpoints
    and a start-up block that reads the listen port from the environment.
    This development embeds the module in Rocq and proves the properties
    its specification states, or the nearest ones the program has.

    Layout:
    - [Py]: what the start-up block takes from the interpreter: [int],
      [os.environ.get], and the resolution of a port by
      [socket.getaddrinfo];
    - [Flask]: the part of the framework that [app.py] relies on
      ([Flask(__name__)], [route], [jsonify], URL matching, request
      dispatch, [run]);
    - [App]: [app.py] itself, statement by statement;
    - [Spec]: the vocabulary of the specification;
    - the theorems.

    The interpreter and the framework are not part of the repository.
    [Py] follows CPython 3.11 on Linux; [Flask] follows Flask 3 on
    Werkzeug 3.  Strings are sequences of code points below 256.  The
    network is an oracle that accepts or refuses a bind. *)

From Stdlib Require Import ZArith String Ascii List Lia.
From stdpp Require Import base numbers strings gmap pretty.

Local Open Scope Z_scope.
Local Open Scope string_scope.

(** ** The interpreter *)

Module Py.

(** The exceptions that can reach the top level of [app.py]. *)
Inductive exn :=
  | ValueError
  | OverflowError
  | AssertionError.

Inductive result (A : Type) :=
  | Ok (a : A)
  | Raise (e : exn).
Arguments Ok {A} a.
Arguments Raise {A} e.

Definition bind {A B : Type} (r : result A) (k : A → result B) : result B :=
  match r with
  | Ok a => k a
  | Raise e => Raise e
  end.

(** What the process finds around it: the limit the interpreter puts on
    the number of digits [int] converts ([sys.get_int_max_str_digits()],
    4300 unless configured, 0 for none), and the network, which accepts
    or refuses a bind and picks the port of a bind at port 0. *)
Record platform := {
  max_str_digits : Z;
  accepts : string → Z → bool;
  ephemeral : Z
}.

(** [os.environ.get('PORT', 5000)] yields a [str] when the variable is
    set and the [int] default otherwise. *)
Inductive value :=
  | VStr (s : string)
  | VInt (z : Z).

(** Characters are code points below 256.  [int] skips the ASCII
    blanks (tab, LF, VT, FF, CR, space) and the two further blanks of
    that range, NEL and NBSP. *)
Definition is_space (c : ascii) : bool :=
  let n := N_of_ascii c in
  ((9 <=? n) && (n <=? 13) || (n =? 32) || (n =? 133) || (n =? 160))%N.

Definition digit_value (c : ascii) : option Z :=
  let n := N_of_ascii c in
  if ((48 <=? n) && (n <=? 57))%N then Some (Z.of_N (n - 48)) else None.

Definition is_underscore (c : ascii) : bool := Ascii.eqb c "_".

Fixpoint lstrip (s : string) : string :=
  match s with
  | String c s' => if is_space c then lstrip s' else s
  | EmptyString => s
  end.

Fixpoint all_space (s : string) : bool :=
  match s with
  | String c s' => is_space c && all_space s'
  | EmptyString => true
  end.

(** The digit loop of [int]: digits accumulate in base ten, a single
    underscore may separate two digits.  [after_us] records that the
    previous character was an underscore; the loop fails on a doubled
    or trailing underscore, and stops in front of the first character
    that is neither a digit nor an underscore. *)
Fixpoint scan (after_us : bool) (acc : Z) (s : string) : option (Z * string) :=
  match s with
  | String c s' =>
      if is_underscore c then
        if after_us then None else scan true acc s'
      else
        match digit_value c with
        | Some d => scan false (10 * acc + d) s'
        | None => if after_us then None else Some (acc, s)
        end
  | EmptyString => if after_us then None else Some (acc, s)
  end.

(** The optional sign in front of the digits. *)
Definition split_sign (s : string) : Z * string :=
  match s with
  | String c r =>
      if Ascii.eqb c "+" then (1, r)
      else if Ascii.eqb c "-" then (-1, r)
      else (1, s)
  | EmptyString => (1, s)
  end.

(** The digits and what follows them: the value read, with its sign,
    when only blanks are left. *)
Definition read_digits (sign : Z) (s : string) : result Z :=
  match scan false 0 s with
  | Some (n, rest) => if all_space rest then Ok (sign * n) else Raise ValueError
  | None => Raise ValueError
  end.

(** The syntax of [int(s)] for a [str]: leading blanks, an optional
    sign, a digit (so neither an empty numeral nor a leading
    underscore), the digit loop, trailing blanks, end of string. *)
Definition long_from_string (s : string) : result Z :=
  let '(sign, s2) := split_sign (lstrip s) in
  match s2 with
  | String c _ =>
      match digit_value c with
      | Some _ => read_digits sign s2
      | None => Raise ValueError
      end
  | EmptyString => Raise ValueError
  end.

(** The digits of a string; underscores, blanks and the sign do not
    count. *)
Fixpoint count_digits (s : string) : Z :=
  match s with
  | String c s' =>
      (match digit_value c with Some _ => 1 | None => 0 end) + count_digits s'
  | EmptyString => 0
  end.

(** The limit on a conversion: consulted above 640 digits, and in force
    when it is positive. *)
Definition over_limit (max digits : Z) : bool :=
  ((640 <? digits) && (0 <? max) && (max <? digits))%Z.

(** [int(s)] for a [str] under the limit [max]: a literal with more
    digits than the limit raises [ValueError], as does a string that is
    no literal. *)
Definition int_of_str (max : Z) (s : string) : result Z :=
  match long_from_string s with
  | Ok n => if over_limit max (count_digits s) then Raise ValueError else Ok n
  | Raise e => Raise e
  end.

(** [int(x)] *)
Definition int (max : Z) (x : value) : result Z :=
  match x with
  | VInt z => Ok z
  | VStr s => int_of_str max s
  end.

(** [environ.get(key, default)] *)
Definition environ_get (environ : gmap string string) (key : string)
    (default : value) : value :=
  match environ !! key with
  | Some s => VStr s
  | None => default
  end.

(** [socket.getaddrinfo(host, port)] for an integer port, as far as the
    port goes.  The port must fit a C [long]; the resolver then reads
    its decimal form into 32 bits, takes a negative result for the name
    of a service, which it does not find, and keeps the low 16 bits of
    any other. *)
Inductive gai :=
  | Resolved (port : Z)
  | Gaierror
  | Overflow.

Definition getaddrinfo (port : Z) : gai :=
  if ((port <? - 2 ^ 63) || (2 ^ 63 <=? port))%Z then Overflow
  else
    let w := (port mod 2 ^ 32)%Z in
    if (w <? 2 ^ 31)%Z then Resolved (w mod 65536)%Z else Gaierror.

End Py.

(** ** The framework *)

Module Flask.

Inductive method :=
  | GET | HEAD | OPTIONS | POST | PUT | PATCH | DELETE.

Definition method_eqb (a b : method) : bool :=
  match a, b with
  | GET, GET | HEAD, HEAD | OPTIONS, OPTIONS | POST, POST
  | PUT, PUT | PATCH, PATCH | DELETE, DELETE => true
  | _, _ => false
  end.

Record request := {
  req_method : method;
  req_path : string;
  req_query : string;
  req_headers : list (string * string);
  req_body : string
}.

(** What a response carries.  A JSON document is kept as the object it
    encodes, so that two bodies are equal when they have the same
    fields with the same values. *)
Inductive payload :=
  | JSON (object : gmap string string)
  | ErrorPage (code : Z)
  | NoBody.

Record response := {
  status : Z;
  content_type : string;
  allow : list method;
  data : payload
}.

(** [jsonify(d)]: a response with the default status and the JSON
    media type. *)
Definition jsonify (d : gmap string string) : response :=
  {| status := 200; content_type := "application/json";
     allow := []; data := JSON d |}.

(** A view returns a response object, or a pair of a response object
    and a status code. *)
Inductive view_rv :=
  | RvResponse (r : response)
  | RvWithStatus (r : response) (code : Z).

(** [make_response]: a response object is passed through, a status
    given next to it overrides its own. *)
Definition make_response (rv : view_rv) : response :=
  match rv with
  | RvResponse r => r
  | RvWithStatus r code =>
      {| status := code; content_type := content_type r;
         allow := allow r; data := data r |}
  end.

(** A rule of the URL map: a path taken as it is, or a prefix followed
    by a [path] converter, as in [/static/<path:filename>]. *)
Inductive pattern :=
  | Exact (path : string)
  | PathUnder (prefix : string).

Record rule := {
  rule_pattern : pattern;
  endpoint : string;
  methods : list method
}.

(** The URL map matches the request path with its leading slashes
    reduced to one; an empty path stays empty. *)
Fixpoint strip_slashes (s : string) : string :=
  match s with
  | String c r => if Ascii.eqb c "/" then strip_slashes r else s
  | EmptyString => s
  end.

Definition normalize (path : string) : string :=
  match path with
  | EmptyString => path
  | _ => String "/" (strip_slashes path)
  end.

(** Doubled slashes merged, pair by pair from the left. *)
Fixpoint merge_slashes (s : string) : string :=
  match s with
  | String c r =>
      match r with
      | String c' r' =>
          if Ascii.eqb c "/" && Ascii.eqb c' "/"
          then String "/" (merge_slashes r')
          else String c (merge_slashes r)
      | EmptyString => s
      end
  | EmptyString => s
  end.

Fixpoint strip_prefix (pre s : string) : option string :=
  match pre with
  | EmptyString => Some s
  | String a pre' =>
      match s with
      | String b s' => if Ascii.eqb a b then strip_prefix pre' s' else None
      | EmptyString => None
      end
  end.

(** A [path] converter takes what follows the prefix when that is not
    empty and does not start with a slash. *)
Definition matches (pat : pattern) (path : string) : bool :=
  match pat with
  | Exact p => String.eqb p path
  | PathUnder pre =>
      match strip_prefix pre path with
      | Some (String c _) => negb (Ascii.eqb c "/")
      | _ => false
      end
  end.

Section Registry.

(** [V] is the type of the function objects registered as views. *)
Context {V : Type} `{EqDecision V}.

(** What an endpoint names: the framework's own view of static files,
    or a function of the application. *)
Inductive registered :=
  | StaticView
  | ViewFunction (f : V).

Record app := {
  url_map : list rule;
  view_functions : gmap string registered;
  got_first_request : bool
}.

Definition add_url_rule (pat : pattern) (name : string) (view : registered)
    (a : app) : app :=
  {| url_map :=
       url_map a ++
       [{| rule_pattern := pat; endpoint := name;
           methods := [GET; HEAD; OPTIONS] |}];
     view_functions := <[name := view]> (view_functions a);
     got_first_request := got_first_request a |}.

(** [Flask(__name__)]: the application starts with the route of its
    static folder. *)
Definition new : app :=
  add_url_rule (PathUnder "/static/") "static" StaticView
    {| url_map := []; view_functions := ∅; got_first_request := false |}.

(** [@app.route(path)] above [def name], for a path without
    converters: the rule is added for GET, to which the framework adds
    HEAD and OPTIONS, and the function is stored under its own name.
    The registration raises once the application has handled a request,
    and when the name is in use for another function. *)
Definition route (path : string) (name : string) (f : V) (a : app)
    : Py.result app :=
  if got_first_request a then Py.Raise Py.AssertionError
  else
    match view_functions a !! name with
    | Some (ViewFunction g) =>
        if decide (g = f)
        then Py.Ok (add_url_rule (Exact path) name (ViewFunction f) a)
        else Py.Raise Py.AssertionError
    | Some StaticView => Py.Raise Py.AssertionError
    | None => Py.Ok (add_url_rule (Exact path) name (ViewFunction f) a)
    end.

(** The first rule that matches a path, and whether it takes the
    method. *)
Inductive found :=
  | Found (r : rule)
  | Forbidden (valid : list method)
  | Missing.

Definition lookup (a : app) (path : string) (m : method) : found :=
  match find (fun r => matches (rule_pattern r) path) (url_map a) with
  | None => Missing
  | Some r =>
      if existsb (method_eqb m) (methods r) then Found r
      else Forbidden (methods r)
  end.

Inductive matched :=
  | Match (r : rule)
  | NotFound
  | MethodNotAllowed (valid : list method)
  | Redirect (target : string).

(** URL matching.  The path is the one the server hands over, decoded.
    An empty path is sent to [/] when the rule of [/] takes the method.
    A path that matches no rule is tried again with its doubled slashes
    merged, and sent to the merged path when that one matches. *)
Definition match_request (a : app) (req : request) : matched :=
  match normalize (req_path req) with
  | EmptyString =>
      match lookup a "/" (req_method req) with
      | Found _ => Redirect "/"
      | _ => NotFound
      end
  | path =>
      match lookup a path (req_method req) with
      | Found r => Match r
      | Forbidden valid => MethodNotAllowed valid
      | Missing =>
          match lookup a (merge_slashes path) (req_method req) with
          | Found _ => Redirect (merge_slashes path)
          | Forbidden valid => MethodNotAllowed valid
          | Missing => NotFound
          end
      end
  end.

(** The application once it has taken a request. *)
Definition mark_served (a : app) : app :=
  {| url_map := url_map a; view_functions := view_functions a;
     got_first_request := true |}.

End Registry.

Arguments registered V : clear implicits.
Arguments app V : clear implicits.

Definition error_response (code : Z) (valid : list method) : response :=
  {| status := code; content_type := "text/html; charset=utf-8";
     allow := valid; data := ErrorPage code |}.

(** The answer that sends the client to another path; the path is in a
    header that [response] does not keep. *)
Definition redirect_response (target : string) : response :=
  {| status := 308; content_type := "text/html; charset=utf-8";
     allow := []; data := ErrorPage 308 |}.

(** The automatic answer to OPTIONS on a matched rule. *)
Definition options_response (valid : list method) : response :=
  {| status := 200; content_type := "text/html; charset=utf-8";
     allow := valid; data := NoBody |}.

(** The view of static files: the repository has no static folder, so
    no file is found. *)
Definition send_static_file (req : request) : response :=
  error_response 404 [].

(** The body of an answer to HEAD is dropped on the way out. *)
Definition finalize (req : request) (r : response) : response :=
  match req_method req with
  | HEAD =>
      {| status := status r; content_type := content_type r;
         allow := allow r; data := NoBody |}
  | _ => r
  end.

Section Dispatch.

(** [S] is the state of the process, [call] runs a function object:
    a view may read the request and may change the state. *)
Context {V S : Type}.
Variable call : V → request → S → view_rv * S.

Definition dispatch_request (a : app V) (req : request) (s : S)
    : response * S :=
  match match_request a req with
  | NotFound => (error_response 404 [], s)
  | MethodNotAllowed valid => (error_response 405 valid, s)
  | Redirect target => (redirect_response target, s)
  | Match r =>
      match req_method req with
      | OPTIONS => (options_response (methods r), s)
      | _ =>
          match view_functions a !! endpoint r with
          | None => (error_response 500 [], s)
          | Some StaticView => (send_static_file req, s)
          | Some (ViewFunction f) =>
              let '(rv, s') := call f req s in (make_response rv, s')
          end
      end
  end.

(** [full_dispatch_request]: 404, 405 and 308 from URL matching, the
    automatic OPTIONS answer, otherwise the view stored under the
    rule's endpoint; a missing view is an internal error. *)
Definition full_dispatch_request (a : app V) (req : request) (s : S)
    : response * S :=
  let '(resp, s') := dispatch_request a req s in (finalize req resp, s').

End Dispatch.

(** What the process does to the network, and how [run] ends. *)
Inductive event :=
  | Bind (host : string) (port : Z).

Inductive run_result :=
  | Listening (host : string) (port : Z)
  | BindFailed (host : string) (port : Z)
  | RunRaised (e : Py.exn)
  | Returned
  | Inherited.

(** The server socket bound at [port]: a port outside 0..65535 raises,
    a refused bind ends the process, and port 0 leaves the choice of
    the port to the system. *)
Definition server_bind (plat : Py.platform) (host : string) (port : Z)
    : list event * run_result :=
  ([Bind host port],
   if ((0 <=? port) && (port <=? 65535))%Z then
     if Py.accepts plat host port
     then Listening host (if (port =? 0)%Z then Py.ephemeral plat else port)
     else BindFailed host port
   else RunRaised Py.OverflowError).

(** [app.run(host, port, debug)] with [debug] off.  The call returns at
    once under the [flask] command, and takes over the socket of the
    reloader when it runs under one.  Otherwise the address is resolved
    and bound: the port is the one the resolver gives, or the port as
    given when the resolver fails. *)
Definition run (environ : gmap string string) (plat : Py.platform)
    (host : string) (port : Z) (debug : bool) : list event * run_result :=
  if bool_decide (environ !! "FLASK_RUN_FROM_CLI" = Some "true") then
    ([], Returned)
  else if bool_decide (environ !! "WERKZEUG_RUN_MAIN" = Some "true") then
    ([], Inherited)
  else
    match Py.getaddrinfo port with
    | Py.Overflow => ([], RunRaised Py.OverflowError)
    | Py.Gaierror => server_bind plat host port
    | Py.Resolved p => server_bind plat host p
    end.

End Flask.

(** ** app.py *)

Module App.

Import Flask.

(** The three functions the module defines, as objects that can be
    stored in the registry of the application. *)
Inductive view_fn :=
  | Home
  | Health
  | Info.

#[global] Instance view_fn_eq_dec : EqDecision view_fn.
Proof. solve_decision. Defined.

(** The state a view runs in: the application object of the module and
    the environment of the process. *)
Record process := {
  proc_app : Flask.app view_fn;
  proc_environ : gmap string string
}.

Definition view : Type := request → process → view_rv * process.

(** [def home()] *)
Definition home : view := fun _ p =>
  (RvResponse (jsonify (list_to_map [
     ("message", "Welcome to DevSecOps Container Security Demo!");
     ("status", "running");
     ("version", "1.0.0")
   ])), p).

(** [def health()] *)
Definition health : view := fun _ p =>
  (RvWithStatus (jsonify (list_to_map [
     ("status", "healthy");
     ("service", "devsecops-demo")
   ])) 200, p).

(** [def info()] *)
Definition info : view := fun _ p =>
  (RvResponse (jsonify (list_to_map [
     ("app", "DevSecOps Demo Application");
     ("description", "Sample app for container vulnerability scanning");
     ("security", "Scanned with Trivy");
     ("pipeline", "GitHub Actions")
   ])), p).

Definition call (f : view_fn) : view :=
  match f with
  | Home => home
  | Health => health
  | Info => info
  end.

(** The body of the module: [app = Flask(__name__)] followed by the
    three decorated definitions, in the order of the file.  Each
    registration may raise. *)
Definition module_body : Py.result (Flask.app view_fn) :=
  Py.bind (route "/" "home" Home Flask.new) (fun a1 =>
  Py.bind (route "/health" "health" Health a1) (fun a2 =>
  route "/info" "info" Info a2)).

(** The application object the body leaves. *)
Definition app : Flask.app view_fn :=
  match module_body with
  | Py.Ok a => a
  | Py.Raise _ => Flask.new
  end.

(** The process once the module body has run. *)
Definition loaded (environ : gmap string string) : process :=
  {| proc_app := app; proc_environ := environ |}.

(** The process once it has taken a request: the framework marks the
    application object. *)
Definition served (p : process) : process :=
  {| proc_app := mark_served (proc_app p); proc_environ := proc_environ p |}.

(** One request against the running process: the application object is
    the one the process holds at that moment, marked first. *)
Definition handle (req : request) (p : process) : response * process :=
  full_dispatch_request call (proc_app (served p)) req (served p).


(** How the run of the module ends: imported without being the main
    module, serving, serving on a socket it was handed, at the end of
    the file, or dead. *)
Inductive cause :=
  | Uncaught (e : Py.exn)
  | BindRefused (host : string) (port : Z).

Inductive outcome :=
  | Imported
  | Serving (host : string) (port : Z) (p : process)
  | ServingInherited (p : process)
  | Finished
  | Died (why : cause).

(** An uncaught exception and a refused bind both end the process with
    status 1; the end of the file ends it with status 0. *)
Definition exit_status (o : outcome) : option Z :=
  match o with
  | Died _ => Some 1
  | Finished => Some 0
  | _ => None
  end.

(** The module run under the name [name]: the body, then the block
    guarded by [__name__ == '__main__'], which converts the port and
    then starts the server.  The result is the list of bind attempts and
    the outcome. *)
Definition main (name : string) (environ : gmap string string)
    (plat : Py.platform) : list event * outcome :=
  match module_body with
  | Py.Raise e => ([], Died (Uncaught e))
  | Py.Ok a =>
      if String.eqb name "__main__" then
        match Py.int (Py.max_str_digits plat)
                (Py.environ_get environ "PORT" (Py.VInt 5000)) with
        | Py.Raise e => ([], Died (Uncaught e))
        | Py.Ok port =>
            match run environ plat "0.0.0.0" port false with
            | (evs, Listening h p) =>
                (evs, Serving h p {| proc_app := a; proc_environ := environ |})
            | (evs, BindFailed h p) => (evs, Died (BindRefused h p))
            | (evs, RunRaised e) => (evs, Died (Uncaught e))
            | (evs, Returned) => (evs, Finished)
            | (evs, Inherited) =>
                (evs, ServingInherited
                        {| proc_app := a; proc_environ := environ |})
            end
        end
      else ([], Imported)
  end.

End App.

(** ** The specification's side

    The objects of section 6 of the specification, written field by
    field, and the vocabulary its properties use. *)

Module Spec.

Import Flask.

Definition home_body : gmap string string :=
  <["message" := "Welcome to DevSecOps Container Security Demo!"]>
    (<["status" := "running"]> (<["version" := "1.0.0"]> ∅)).

Definition health_body : gmap string string :=
  <["status" := "healthy"]> (<["service" := "devsecops-demo"]> ∅).

Definition info_body : gmap string string :=
  <["app" := "DevSecOps Demo Application"]>
    (<["description" := "Sample app for container vulnerability scanning"]>
       (<["security" := "Scanned with Trivy"]>
          (<["pipeline" := "GitHub Actions"]> ∅))).

(** An integer literal, as the language reference writes it for [int]:
    blanks, an optional sign, digits in which single underscores may
    separate two digits, blanks.  [numeral] is the digit part,
    [numeral_value] its value in base ten. *)
Definition is_digit (c : ascii) : Prop := ∃ d, Py.digit_value c = Some d.

Inductive numeral : string → Prop :=
  | numeral_digit c : is_digit c → numeral (String c "")
  | numeral_next c s : is_digit c → numeral s → numeral (String c s)
  | numeral_group c s :
      is_digit c → numeral s → numeral (String c (String "_" s)).

Fixpoint numeral_value (acc : Z) (s : string) : Z :=
  match s with
  | String c s' =>
      numeral_value
        (match Py.digit_value c with Some d => 10 * acc + d | None => acc end) s'
  | EmptyString => acc
  end.

Inductive sign_prefix : string → Z → Prop :=
  | sign_none : sign_prefix "" 1
  | sign_plus : sign_prefix "+" 1
  | sign_minus : sign_prefix "-" (-1).

Definition blank (s : string) : Prop := Py.all_space s = true.

Definition int_literal (s : string) (n : Z) : Prop :=
  ∃ pre sg sign body post,
    s = pre +:+ sg +:+ body +:+ post
    ∧ blank pre ∧ sign_prefix sg sign ∧ numeral body ∧ blank post
    ∧ n = sign * numeral_value 0 body.

(** A string within the interpreter's limit on digits. *)
Definition within_limit (plat : Py.platform) (s : string) : Prop :=
  Py.over_limit (Py.max_str_digits plat) (Py.count_digits s) = false.

(** The port the configuration asks for: 5000 when PORT is unset, the
    value of the literal when PORT is set to one. *)
Definition configured_port (environ : gmap string string) (port : Z) : Prop :=
  (environ !! "PORT" = None ∧ port = 5000)
  ∨ (∃ s, environ !! "PORT" = Some s ∧ int_literal s port).

(** A port number that names a port. *)
Definition port_number (n : Z) : Prop := (1 <= n <= 65535)%Z.

(** An environment without the variables by which the framework's own
    command and reloader reach [run]. *)
Definition plain (environ : gmap string string) : Prop :=
  environ !! "FLASK_RUN_FROM_CLI" = None
  ∧ environ !! "WERKZEUG_RUN_MAIN" = None
  ∧ environ !! "WERKZEUG_SERVER_FD" = None.

(** The defined routes. *)
Definition defined (path : string) : Prop :=
  path = "/" ∨ path = "/health" ∨ path = "/info".

(** A path in the area of the static folder. *)
Definition under_static (path : string) : Prop :=
  ∃ rest, path = "/static/" +:+ rest.

(** A request with nothing but a method and a path. *)
Definition bare (m : method) (path : string) : request :=
  {| req_method := m; req_path := path; req_query := "";
     req_headers := []; req_body := "" |}.

(** The server started on all interfaces at [port]: one bind attempt,
    and the process serves when the network accepts it. *)
Definition started (environ : gmap string string) (plat : Py.platform)
    (port : Z) : list event * App.outcome :=
  ([Bind "0.0.0.0" port],
   if Py.accepts plat "0.0.0.0" port
   then App.Serving "0.0.0.0" port (App.loaded environ)
   else App.Died (App.BindRefused "0.0.0.0" port)).

(** The default interpreter on a network on which every bind
    succeeds. *)
Definition open_network : Py.platform :=
  {| Py.max_str_digits := 4300; Py.accepts := fun _ _ => true;
     Py.ephemeral := 49152 |}.

(** The specification's account of failure: whenever start-up ends the
    process, a bind was refused. *)
Definition bind_is_only_failure (environ : gmap string string)
    (plat : Py.platform) : Prop :=
  ∀ why, snd (App.main "__main__" environ plat) = App.Died why →
    ∃ host port,
      why = App.BindRefused host port ∧ Py.accepts plat host port = false.

(** The specification's account of the port: start-up binds at the
    integer PORT is set to. *)
Definition binds_at (environ : gmap string string) (plat : Py.platform)
    (n : Z) : Prop :=
  App.main "__main__" environ plat = started environ plat n.


(** A request that differs from [bare] in everything a route ignores. *)
Definition loaded_request (m : method) (path : string) : request :=
  {| req_method := m; req_path := path; req_query := "verbose=1";
     req_headers := [("Accept", "text/plain"); ("X-Request-Id", "42")];
     req_body := "ping" |}.

(** The methods a rule registered by [route] accepts. *)
Definition allowed (m : method) : Prop := m = GET ∨ m = HEAD ∨ m = OPTIONS.

(** The answer of the loaded process to one request. *)
Definition answer (environ : gmap string string) (req : request) : response :=
  fst (App.handle req (App.loaded environ)).

(** A string without a slash. *)
Fixpoint slash_free (s : string) : bool :=
  match s with
  | String c r => negb (Ascii.eqb c "/") && slash_free r
  | EmptyString => true
  end.

(** A run of [k] zeros. *)
Fixpoint zeros (k : nat) : string :=
  match k with
  | O => ""
  | S k' => String "0" (zeros k')
  end.

End Spec.

Example ex_int_plain : Py.int_of_str 4300 "8080" = Py.Ok 8080.
Proof. reflexivity. Qed.

Example ex_int_decorated : Py.int_of_str 4300 "  -1_000 " = Py.Ok (-1000).
Proof. reflexivity. Qed.

Example ex_int_leading_zeros : Py.int_of_str 4300 "+007" = Py.Ok 7.
Proof. reflexivity. Qed.

Example ex_int_empty : Py.int_of_str 4300 "" = Py.Raise Py.ValueError.
Proof. reflexivity. Qed.

Example ex_int_rejects :
  map (Py.int_of_str 4300)
    ["abc"; "5_"; "_5"; "5__0"; "- 5"; "5 0"; "0x10"; "8080.0"; " "; "+"]
  = repeat (Py.Raise Py.ValueError) 10.
Proof. reflexivity. Qed.

Example ex_int_limit :
  Py.int_of_str 4300 (Spec.zeros 4300 +:+ "1") = Py.Raise Py.ValueError
  ∧ Py.int_of_str 0 (Spec.zeros 4300 +:+ "1") = Py.Ok 1
  ∧ Py.int_of_str 4300 (Spec.zeros 4299 +:+ "1") = Py.Ok 1.
Proof. repeat split; vm_compute; reflexivity. Qed.

Example ex_getaddrinfo :
  map Py.getaddrinfo
    [0; 65535; 65536; 70000; 2 ^ 31 - 1; 2 ^ 31; 2 ^ 32 + 80; 2 ^ 63 - 1;
     2 ^ 63; -1; - 2 ^ 31 - 1; - 2 ^ 32 + 80; - 2 ^ 63; - 2 ^ 63 - 1]
  = [Py.Resolved 0; Py.Resolved 65535; Py.Resolved 0; Py.Resolved 4464;
     Py.Resolved 65535; Py.Gaierror; Py.Resolved 80; Py.Gaierror;
     Py.Overflow; Py.Gaierror; Py.Resolved 65535; Py.Resolved 80;
     Py.Resolved 0; Py.Overflow].
Proof. reflexivity. Qed.

Example ex_merge_slashes :
  map Flask.merge_slashes ["//health"; "///health"; "/static//x"; "/a////b"]
  = ["/health"; "//health"; "/static/x"; "/a//b"].
Proof. reflexivity. Qed.

Example ex_module_body : App.module_body = Py.Ok App.app.
Proof. reflexivity. Qed.

Example ex_get_health :
  fst (App.handle (Spec.bare Flask.GET "/health") (App.loaded ∅))
  = Flask.jsonify Spec.health_body.
Proof. vm_compute. reflexivity. Qed.

Example ex_post_health :
  Flask.status (fst (App.handle (Spec.bare Flask.POST "/health") (App.loaded ∅))) = 405.
Proof. reflexivity. Qed.

Example ex_get_missing :
  Flask.status (fst (App.handle (Spec.bare Flask.GET "/metrics") (App.loaded ∅))) = 404.
Proof. reflexivity. Qed.

Example ex_static :
  map (fun m => Flask.status (Spec.answer ∅ (Spec.bare m "/static/x")))
    [Flask.GET; Flask.POST; Flask.OPTIONS]
  = [404; 405; 200].
Proof. reflexivity. Qed.

Example ex_slashes :
  map (fun path => Flask.status (Spec.answer ∅ (Spec.bare Flask.GET path)))
    ["//health"; ""; "/health/"; "health"]
  = [200; 308; 404; 200].
Proof. reflexivity. Qed.

Example ex_head_missing :
  Flask.data (Spec.answer ∅ (Spec.bare Flask.HEAD "/metrics")) = Flask.NoBody.
Proof. reflexivity. Qed.

Example ex_route_after_request :
  Flask.route "/late" "late" App.Home (App.proc_app (App.served (App.loaded ∅)))
  = Py.Raise Py.AssertionError
  ∧ Flask.route "/again" "home" App.Info App.app = Py.Raise Py.AssertionError.
Proof. split; reflexivity. Qed.

Example ex_main_default :
  App.main "__main__" ∅ Spec.open_network = Spec.started ∅ Spec.open_network 5000.
Proof. reflexivity. Qed.

Example ex_main_imported :
  App.main "app" ∅ Spec.open_network = ([], App.Imported).
Proof. reflexivity. Qed.

Example ex_main_ports :
  map (fun port => App.main "__main__" {["PORT" := port]} Spec.open_network)
    ["70000"; "0"; "-1"; "100000000000000000000"]
  = [([Flask.Bind "0.0.0.0" 4464],
      App.Serving "0.0.0.0" 4464 (App.loaded {["PORT" := "70000"]}));
     ([Flask.Bind "0.0.0.0" 0],
      App.Serving "0.0.0.0" 49152 (App.loaded {["PORT" := "0"]}));
     ([Flask.Bind "0.0.0.0" (-1)], App.Died (App.Uncaught Py.OverflowError));
     ([], App.Died (App.Uncaught Py.OverflowError))].
Proof. reflexivity. Qed.

Example ex_main_under_flask_command :
  App.main "__main__" {["FLASK_RUN_FROM_CLI" := "true"]} Spec.open_network
  = ([], App.Finished).
Proof. reflexivity. Qed.
(** ** Decimal literals

    [pretty n] is the decimal numeral of [n], what [str(n)] prints;
    the syntax of [int] reads it back. *)

Section Literals.

Import Py.

Lemma digit_value_char (d : N) :
  (d < 10)%N → digit_value (pretty_N_char d) = Some (Z.of_N d).
Proof.
  intros Hd.
  assert (d = 0 ∨ d = 1 ∨ d = 2 ∨ d = 3 ∨ d = 4 ∨ d = 5 ∨ d = 6
          ∨ d = 7 ∨ d = 8 ∨ d = 9)%N as Hcases by lia.
  repeat (destruct Hcases as [-> | Hcases]; [reflexivity |]).
  subst d. reflexivity.
Qed.

Lemma digit_not_underscore (c : ascii) (d : Z) :
  digit_value c = Some d → is_underscore c = false.
Proof.
  destruct c as [[] [] [] [] [] [] [] []]; vm_compute; congruence.
Qed.

Lemma digit_not_space (c : ascii) (d : Z) :
  digit_value c = Some d → is_space c = false.
Proof.
  destruct c as [[] [] [] [] [] [] [] []]; vm_compute; congruence.
Qed.

Lemma digit_not_sign (c : ascii) (d : Z) (r : string) :
  digit_value c = Some d → split_sign (String c r) = (1, String c r).
Proof.
  destruct c as [[] [] [] [] [] [] [] []]; vm_compute; congruence.
Qed.

Lemma scan_digit (c : ascii) (d acc : Z) (s : string) :
  digit_value c = Some d →
  scan false acc (String c s) = scan false (10 * acc + d) s.
Proof.
  intros Hd. simpl. rewrite (digit_not_underscore c d Hd), Hd. reflexivity.
Qed.

(** Reading the digits that [pretty_N_go x] puts in front of [s] takes
    the accumulator from [0] to [x]. *)
Lemma scan_pretty_N_go (x : N) :
  ∀ s, scan false 0 (pretty_N_go x s) = scan false (Z.of_N x) s.
Proof.
  induction (N.lt_wf_0 x) as [x _ IH]; intros s.
  destruct (decide (x = 0%N)) as [-> | Hx].
  - reflexivity.
  - rewrite pretty_N_go_step by lia.
    rewrite IH by (apply N.div_lt; lia).
    rewrite (scan_digit _ (Z.of_N (x `mod` 10))).
    + f_equal. pose proof (N.div_mod x 10). lia.
    + apply digit_value_char, N.mod_lt. lia.
Qed.

(** The numeral of a positive number starts with a digit. *)
Lemma pretty_N_go_head (x : N) :
  ∀ s, (0 < x)%N →
    ∃ c r d, pretty_N_go x s = String c r ∧ digit_value c = Some d.
Proof.
  induction (N.lt_wf_0 x) as [x _ IH]; intros s Hx.
  rewrite pretty_N_go_step by done.
  destruct (decide (x `div` 10 = 0)%N) as [-> | Hq].
  - eexists _, _, _. split; [reflexivity |].
    apply digit_value_char, N.mod_lt. lia.
  - apply IH; [apply N.div_lt; [done | lia] | by apply N.neq_0_lt_0].
Qed.

(** [int] on a numeral that starts with a digit, bare or behind a minus
    sign. *)
Lemma long_from_string_unsigned (c : ascii) (r : string) (d : Z) :
  digit_value c = Some d →
  long_from_string (String c r) = read_digits 1 (String c r).
Proof.
  intros Hd. unfold long_from_string.
  cbn [lstrip]. rewrite (digit_not_space c d Hd), (digit_not_sign c d r Hd), Hd.
  reflexivity.
Qed.

Lemma long_from_string_minus (c : ascii) (r : string) (d : Z) :
  digit_value c = Some d →
  long_from_string (String "-" (String c r)) = read_digits (-1) (String c r).
Proof.
  intros Hd. unfold long_from_string.
  change (lstrip (String "-" (String c r))) with (String "-" (String c r)).
  change (split_sign (String "-" (String c r))) with (-1, String c r).
  cbv beta iota. rewrite Hd. reflexivity.
Qed.

Lemma read_digits_pretty (sign : Z) (p : positive) :
  read_digits sign (pretty (Npos p)) = Ok (sign * Zpos p).
Proof.
  unfold read_digits, pretty, pretty_N. rewrite decide_False by done.
  rewrite scan_pretty_N_go. reflexivity.
Qed.

(** The numeral of [n] reads as [n]. *)
Lemma long_from_string_pretty (n : Z) : long_from_string (pretty n) = Ok n.
Proof.
  destruct n as [| p | p]; [reflexivity | |].
  all: destruct (pretty_N_go_head (Npos p) "") as (c & r & d & Heq & Hd); [lia |].
  all: assert (pretty (Npos p) = String c r) as Hp
         by (unfold pretty, pretty_N; by rewrite decide_False).
  - change (pretty (Zpos p)) with (pretty (Npos p)).
    rewrite Hp, (long_from_string_unsigned c r d Hd), <- Hp, read_digits_pretty.
    f_equal.
  - change (pretty (Zneg p)) with (String "-" (pretty (Npos p))).
    rewrite Hp, (long_from_string_minus c r d Hd), <- Hp, read_digits_pretty.
    f_equal.
Qed.

(** *** The literals of the syntax are those of the grammar *)

Lemma space_not_digit (c : ascii) :
  is_space c = true → digit_value c = None.
Proof.
  destruct c as [[] [] [] [] [] [] [] []]; vm_compute; congruence.
Qed.

Lemma space_not_underscore (c : ascii) :
  is_space c = true → is_underscore c = false.
Proof.
  destruct c as [[] [] [] [] [] [] [] []]; vm_compute; congruence.
Qed.

Lemma scan_after_underscore (c : ascii) (d acc : Z) (s : string) :
  digit_value c = Some d →
  scan true acc (String c s) = scan false acc (String c s).
Proof.
  intros Hd. simpl. rewrite (digit_not_underscore c d Hd), Hd. reflexivity.
Qed.

(** The digit loop stops in front of blanks. *)
Lemma scan_blank (acc : Z) (post : string) :
  Spec.blank post → scan false acc post = Some (acc, post).
Proof.
  unfold Spec.blank. destruct post as [| c r]; [reflexivity |].
  cbn [all_space]. intros [Hc _]%andb_true_iff. simpl.
  rewrite (space_not_underscore c Hc), (space_not_digit c Hc). reflexivity.
Qed.

Lemma numeral_head (body : string) :
  Spec.numeral body → ∃ c r d, body = String c r ∧ digit_value c = Some d.
Proof. intros [c [d Hd] | c s [d Hd] _ | c s [d Hd] _]; eauto. Qed.

(** The digit loop reads a numeral to its end. *)
Lemma scan_numeral (body post : string) :
  Spec.numeral body → Spec.blank post →
  ∀ acc, scan false acc (body +:+ post)
         = Some (Spec.numeral_value acc body, post).
Proof.
  intros Hbody Hpost.
  induction Hbody as [c [d Hd] | c s [d Hd] Hs IH | c s [d Hd] Hs IH];
    intros acc.
  - change (String c "" +:+ post) with (String c post).
    rewrite (scan_digit c d) by done. cbn [Spec.numeral_value]. rewrite Hd.
    by apply scan_blank.
  - change (String c s +:+ post) with (String c (s +:+ post)).
    rewrite (scan_digit c d) by done. cbn [Spec.numeral_value]. rewrite Hd.
    apply IH.
  - change (String c (String "_" s) +:+ post)
      with (String c (String "_" (s +:+ post))).
    rewrite (scan_digit c d) by done.
    change (Spec.numeral_value acc (String c (String "_" s)))
      with (Spec.numeral_value
              (match digit_value c with Some d => 10 * acc + d | None => acc end)
              s).
    rewrite Hd.
    change (scan false (10 * acc + d) (String "_" (s +:+ post)))
      with (scan true (10 * acc + d) (s +:+ post)).
    destruct (numeral_head s Hs) as (c' & r' & d' & -> & Hd').
    change (String c' r' +:+ post) with (String c' (r' +:+ post)) in *.
    rewrite (scan_after_underscore c' d') by done. apply IH.
Qed.

Lemma lstrip_blank (pre t : string) :
  Spec.blank pre → lstrip (pre +:+ t) = lstrip t.
Proof.
  unfold Spec.blank. induction pre as [| c pre IH]; [reflexivity |].
  cbn [all_space]. intros [Hc Hpre]%andb_true_iff.
  change (String c pre +:+ t) with (String c (pre +:+ t)).
  cbn [lstrip]. rewrite Hc. by apply IH.
Qed.

(** Completeness: every literal of the grammar is read, with its
    value. *)
Lemma long_from_string_literal (s : string) (n : Z) :
  Spec.int_literal s n → long_from_string s = Ok n.
Proof.
  intros (pre & sg & sign & body & post & -> & Hpre & Hsg & Hbody & Hpost & ->).
  destruct (numeral_head body Hbody) as (c & r & d & Hb & Hd).
  unfold long_from_string. rewrite (lstrip_blank pre _ Hpre).
  assert (read_digits sign (body +:+ post)
          = Ok (sign * Spec.numeral_value 0 body)) as Hread.
  { unfold read_digits. rewrite (scan_numeral body post Hbody Hpost).
    unfold Spec.blank in Hpost. by rewrite Hpost. }
  destruct Hsg.
  - change ("" +:+ body +:+ post) with (body +:+ post).
    rewrite Hb in *. change (String c r +:+ post) with (String c (r +:+ post)) in *.
    cbn [lstrip]. rewrite (digit_not_space c d Hd), (digit_not_sign c d _ Hd), Hd.
    exact Hread.
  - change (lstrip ("+" +:+ body +:+ post)) with ("+" +:+ body +:+ post).
    change (split_sign ("+" +:+ body +:+ post)) with (1, body +:+ post).
    rewrite Hb in *. change (String c r +:+ post) with (String c (r +:+ post)) in *.
    cbv beta iota. rewrite Hd. exact Hread.
  - change (lstrip ("-" +:+ body +:+ post)) with ("-" +:+ body +:+ post).
    change (split_sign ("-" +:+ body +:+ post)) with (-1, body +:+ post).
    rewrite Hb in *. change (String c r +:+ post) with (String c (r +:+ post)) in *.
    cbv beta iota. rewrite Hd. exact Hread.
Qed.

Lemma lstrip_split (s : string) :
  ∃ pre, s = pre +:+ lstrip s ∧ Spec.blank pre.
Proof.
  induction s as [| c s (pre & Hs & Hpre)].
  - by exists "".
  - cbn [lstrip]. destruct (is_space c) eqn:Hc.
    + exists (String c pre). split.
      * change (String c pre +:+ lstrip s) with (String c (pre +:+ lstrip s)).
        by rewrite <- Hs.
      * unfold Spec.blank in *. cbn [all_space]. by rewrite Hc, Hpre.
    + by exists "".
Qed.

Lemma split_sign_split (s1 s2 : string) (sign : Z) :
  split_sign s1 = (sign, s2) →
  ∃ sg, s1 = sg +:+ s2 ∧ Spec.sign_prefix sg sign.
Proof.
  destruct s1 as [| c r]; cbn [split_sign].
  - intros [= <- <-]. exists "". split; [done | constructor].
  - destruct (Ascii.eqb_spec c "+") as [-> | _].
    { intros [= <- <-]. exists "+". split; [done | constructor]. }
    destruct (Ascii.eqb_spec c "-") as [-> | _].
    { intros [= <- <-]. exists "-". split; [done | constructor]. }
    intros [= <- <-]. exists "". split; [done | constructor].
Qed.

(** What the digit loop has read, from a digit on, is a numeral. *)
Lemma scan_sound (k : nat) :
  ∀ s c d acc n rest,
    (String.length s ≤ k)%nat →
    digit_value c = Some d →
    scan false acc (String c s) = Some (n, rest) →
    ∃ body, String c s = body +:+ rest ∧ Spec.numeral body
            ∧ n = Spec.numeral_value acc body.
Proof.
  induction k as [| k IH]; intros s c d acc n rest Hlen Hd Hscan;
    rewrite (scan_digit c d) in Hscan by done.
  all: assert (Spec.numeral (String c "")
               ∧ Spec.numeral_value acc (String c "") = 10 * acc + d)
         as [Hone Hval]
         by (split; [constructor; by exists d | cbn; by rewrite Hd]).
  all: destruct s as [| c' s'];
    [ cbn in Hscan; injection Hscan as <- <-; exists (String c ""); done |].
  { cbn in Hlen. lia. }
  cbn [String.length] in Hlen.
  cbn [scan] in Hscan.
  destruct (is_underscore c') eqn:Hus.
  - apply Ascii.eqb_eq in Hus as ->.
    destruct s' as [| c'' s'']; [discriminate |].
    cbn [scan] in Hscan.
    destruct (is_underscore c''); [discriminate |].
    destruct (digit_value c'') as [d'' |] eqn:Hd''; [| discriminate].
    rewrite <- (scan_digit c'' d'') in Hscan by done.
    apply (IH s'' c'' d'') in Hscan as (body & Hsplit & Hbody & ->);
      [| cbn [String.length] in Hlen; lia | done].
    exists (String c (String "_" body)). split; [| split].
    + change (String c (String "_" body) +:+ rest)
        with (String c (String "_" (body +:+ rest))).
      by rewrite <- Hsplit.
    + constructor; [by exists d | done].
    + cbn [Spec.numeral_value]. rewrite Hd. reflexivity.
  - destruct (digit_value c') as [d' |] eqn:Hd'.
    + assert (scan false (10 * acc + d) (String c' s') = Some (n, rest)) as Hscan'.
      { rewrite (scan_digit c' d') by done. exact Hscan. }
      apply (IH s' c' d') in Hscan' as (body & Hsplit & Hbody & ->);
        [| lia | done].
      exists (String c body). split; [| split].
      * change (String c body +:+ rest) with (String c (body +:+ rest)).
        by rewrite <- Hsplit.
      * apply Spec.numeral_next; [by exists d | done].
      * cbn [Spec.numeral_value]. rewrite Hd. reflexivity.
    + injection Hscan as <- <-. exists (String c ""). done.
Qed.

(** Soundness: what is read is a literal of the grammar. *)
Lemma long_from_string_sound (s : string) (n : Z) :
  long_from_string s = Ok n → Spec.int_literal s n.
Proof.
  unfold long_from_string.
  destruct (lstrip_split s) as (pre & Hs & Hpre).
  destruct (split_sign (lstrip s)) as [sign s2] eqn:Hsign.
  apply split_sign_split in Hsign as (sg & Hs1 & Hsg).
  destruct s2 as [| c r]; [discriminate |].
  destruct (digit_value c) as [d |] eqn:Hd; [| discriminate].
  unfold read_digits.
  destruct (scan false 0 (String c r)) as [[m rest] |] eqn:Hscan; [| discriminate].
  destruct (all_space rest) eqn:Hrest; [| discriminate].
  intros [= <-].
  apply (scan_sound (String.length r) r c d) in Hscan
    as (body & Hsplit & Hbody & ->); [| lia | done].
  exists pre, sg, sign, body, rest.
  rewrite Hs at 1. rewrite Hs1, Hsplit. done.
Qed.

(** The numeral of every integer is a literal, with that integer as its
    value. *)
Lemma pretty_literal (n : Z) : Spec.int_literal (pretty n) n.
Proof. apply long_from_string_sound, long_from_string_pretty. Qed.

(** The syntax raises nothing but [ValueError]. *)
Lemma long_from_string_error (s : string) (e : exn) :
  long_from_string s = Raise e → e = ValueError.
Proof.
  unfold long_from_string, read_digits.
  destruct (split_sign (lstrip s)) as [sign [| c r]]; [congruence |].
  destruct (digit_value c); [| congruence].
  destruct (scan false 0 (String c r)) as [[n rest] |]; [| congruence].
  destruct (all_space rest); congruence.
Qed.

(** The strings that are no literal are those the syntax rejects. *)
Lemma long_from_string_raises (s : string) :
  (¬ ∃ n, Spec.int_literal s n) ↔ long_from_string s = Raise ValueError.
Proof.
  split.
  - intros Hnone. destruct (long_from_string s) as [n | e] eqn:Hint.
    + destruct Hnone. exists n. by apply long_from_string_sound.
    + by rewrite (long_from_string_error s e Hint).
  - intros Hraise [n Hn%long_from_string_literal]. congruence.
Qed.

End Literals.

(** ** The conversion of PORT *)

Section Conversion.

Import Py.

Lemma all_space_app (s post : string) :
  Spec.blank post → all_space (s +:+ post) = all_space s.
Proof.
  unfold Spec.blank. intros Hpost. induction s as [| c s IH]; [done |].
  change (String c s +:+ post) with (String c (s +:+ post)).
  cbn [all_space]. by rewrite IH.
Qed.

(** Blanks after the text leave the digit loop where it was. *)
Lemma scan_app_blank (post : string) :
  Spec.blank post →
  ∀ s b acc,
    scan b acc (s +:+ post)
    = match scan b acc s with
      | Some (n, rest) => Some (n, rest +:+ post)
      | None => None
      end.
Proof.
  intros Hpost. induction s as [| c s IH]; intros b acc.
  - change ("" +:+ post) with post. destruct b.
    + destruct post as [| c r]; [reflexivity |].
      unfold Spec.blank in Hpost. cbn [all_space] in Hpost.
      apply andb_true_iff in Hpost as [Hc _]. cbn [scan].
      by rewrite (space_not_underscore c Hc), (space_not_digit c Hc).
    + by rewrite scan_blank.
  - change (String c s +:+ post) with (String c (s +:+ post)).
    cbn [scan]. destruct (is_underscore c).
    + destruct b; [reflexivity | apply IH].
    + destruct (digit_value c); [apply IH |]. by destruct b.
Qed.

Lemma read_digits_app_blank (sign : Z) (s post : string) :
  Spec.blank post → read_digits sign (s +:+ post) = read_digits sign s.
Proof.
  intros Hpost. unfold read_digits. rewrite (scan_app_blank post Hpost).
  destruct (scan false 0 s) as [[n rest] |]; [| done].
  by rewrite (all_space_app rest post Hpost).
Qed.

Lemma lstrip_of_blank (s : string) : Spec.blank s → lstrip s = "".
Proof.
  unfold Spec.blank. induction s as [| c s IH]; [done |].
  cbn [all_space lstrip]. intros [Hc Hs]%andb_true_iff. rewrite Hc. auto.
Qed.

Lemma long_from_string_blank (s : string) :
  Spec.blank s → long_from_string s = Raise ValueError.
Proof. intros Hs. unfold long_from_string. by rewrite (lstrip_of_blank s Hs). Qed.

Lemma blank_head_not_digit (post : string) :
  Spec.blank post →
  match post with
  | String c _ => digit_value c = None
  | EmptyString => True
  end.
Proof.
  unfold Spec.blank. destruct post as [| c r]; [done |]. cbn [all_space].
  intros [Hc _]%andb_true_iff. by apply space_not_digit.
Qed.

Lemma long_from_string_app_blank (s post : string) :
  Spec.blank post → long_from_string (s +:+ post) = long_from_string s.
Proof.
  intros Hpost. induction s as [| c s IH].
  - change ("" +:+ post) with post.
    rewrite (long_from_string_blank post Hpost). reflexivity.
  - change (String c s +:+ post) with (String c (s +:+ post)).
    unfold long_from_string in *. cbn [lstrip].
    destruct (is_space c); [exact IH |].
    cbn [split_sign].
    assert (∀ sign t,
      match t +:+ post with
      | String c0 _ =>
          match digit_value c0 with
          | Some _ => read_digits sign (t +:+ post)
          | None => Raise ValueError
          end
      | EmptyString => Raise ValueError
      end
      = match t with
        | String c0 _ =>
            match digit_value c0 with
            | Some _ => read_digits sign t
            | None => Raise ValueError
            end
        | EmptyString => Raise ValueError
        end) as Hbody.
    { intros sign [| c0 t].
      - change ("" +:+ post) with post.
        pose proof (blank_head_not_digit post Hpost) as Hhead.
        destruct post as [| c1 r]; [done |]. by rewrite Hhead.
      - change (String c0 t +:+ post) with (String c0 (t +:+ post)).
        cbv beta iota. destruct (digit_value c0); [| done].
        apply (read_digits_app_blank sign (String c0 t) post Hpost). }
    destruct (Ascii.eqb c "+"); [apply Hbody |].
    destruct (Ascii.eqb c "-"); [apply Hbody |].
    apply (Hbody 1 (String c s)).
Qed.

Lemma count_digits_app (a b : string) :
  count_digits (a +:+ b) = (count_digits a + count_digits b)%Z.
Proof.
  induction a as [| c a IH]; [reflexivity |].
  change (String c a +:+ b) with (String c (a +:+ b)).
  cbn [count_digits]. rewrite IH. lia.
Qed.

Lemma count_digits_blank (s : string) : Spec.blank s → count_digits s = 0%Z.
Proof.
  unfold Spec.blank. induction s as [| c s IH]; [done |].
  cbn [all_space count_digits]. intros [Hc Hs]%andb_true_iff.
  rewrite (space_not_digit c Hc), (IH Hs). reflexivity.
Qed.

Lemma count_digits_zeros (k : nat) :
  count_digits (Spec.zeros k) = Z.of_nat k.
Proof.
  induction k as [| k IH]; [reflexivity |].
  cbn [Spec.zeros count_digits].
  change (digit_value "0") with (Some 0%Z). cbv iota. rewrite IH. lia.
Qed.

(** The numeral of a number below [10 ^ k] has at most [k] digits. *)
Lemma count_digits_pretty_N_go (k : nat) :
  ∀ x s, (x < 10 ^ N.of_nat k)%N →
    (count_digits (pretty_N_go x s) <= Z.of_nat k + count_digits s)%Z.
Proof.
  induction k as [| k IH]; intros x s Hx.
  - assert (x = 0%N) as -> by (cbn in Hx; lia). rewrite pretty_N_go_0. lia.
  - destruct (decide (x = 0%N)) as [-> | Hpos].
    { rewrite pretty_N_go_0. lia. }
    rewrite pretty_N_go_step by lia.
    etransitivity; [apply IH |].
    + rewrite Nat2N.inj_succ, N.pow_succ_r' in Hx.
      apply N.Div0.div_lt_upper_bound. lia.
    + cbn [count_digits].
      rewrite (digit_value_char (x `mod` 10)) by (apply N.mod_lt; lia). lia.
Qed.

Lemma count_digits_port (n : Z) :
  (0 <= n <= 65535)%Z → (count_digits (pretty n) <= 5)%Z.
Proof.
  intros Hn. destruct n as [| p | p]; [by vm_compute | | lia].
  change (pretty (Zpos p)) with (pretty (Npos p)).
  unfold pretty, pretty_N. rewrite decide_False by done.
  pose proof (count_digits_pretty_N_go 5 (Npos p) "") as Hc.
  cbn [count_digits] in Hc. apply Hc.
  change (10 ^ N.of_nat 5)%N with 100000%N. lia.
Qed.

Lemma over_limit_small (max digits : Z) :
  (digits <= 640)%Z → over_limit max digits = false.
Proof.
  intros Hd. unfold over_limit.
  destruct (Z.ltb_spec 640 digits); [lia | reflexivity].
Qed.

(** [int] reads a literal within the limit, and raises on everything
    else. *)
Lemma int_of_str_literal (max : Z) (s : string) (n : Z) :
  Spec.int_literal s n → over_limit max (count_digits s) = false →
  int_of_str max s = Ok n.
Proof.
  intros Hlit Hlim. unfold int_of_str.
  by rewrite (long_from_string_literal s n Hlit), Hlim.
Qed.

Lemma int_of_str_sound (max : Z) (s : string) (n : Z) :
  int_of_str max s = Ok n →
  Spec.int_literal s n ∧ over_limit max (count_digits s) = false.
Proof.
  unfold int_of_str.
  destruct (long_from_string s) as [m | e] eqn:Hsyn; [| done].
  destruct (over_limit max (count_digits s)); [done |].
  intros [= <-]. split; [by apply long_from_string_sound | done].
Qed.

Lemma int_of_str_error (max : Z) (s : string) (e : exn) :
  int_of_str max s = Raise e → e = ValueError.
Proof.
  unfold int_of_str.
  destruct (long_from_string s) as [m | e'] eqn:Hsyn.
  - destruct (over_limit max (count_digits s)); congruence.
  - intros [= <-]. by apply (long_from_string_error s).
Qed.

Lemma int_of_str_not_literal (max : Z) (s : string) :
  (¬ ∃ n, Spec.int_literal s n) → int_of_str max s = Raise ValueError.
Proof.
  intros Hnone%long_from_string_raises. unfold int_of_str. by rewrite Hnone.
Qed.

Lemma int_of_str_blank (max : Z) (s : string) :
  Spec.blank s → int_of_str max s = Raise ValueError.
Proof.
  intros Hs. unfold int_of_str. by rewrite (long_from_string_blank s Hs).
Qed.

Lemma int_of_str_port (max : Z) (n : Z) :
  (0 <= n <= 65535)%Z → int_of_str max (pretty n) = Ok n.
Proof.
  intros Hn. apply int_of_str_literal; [apply pretty_literal |].
  apply over_limit_small. pose proof (count_digits_port n Hn). lia.
Qed.

(** X1.  Under the limit [max] of the interpreter, [int] reads a string
    as [n] exactly when the string is an integer literal of value [n]
    (blanks, an optional sign, digits with single underscores between
    digits, blanks) whose digits do not exceed the limit. *)
Theorem int_accepts_exactly_literals (max : Z) (s : string) (n : Z) :
  int_of_str max s = Ok n
  ↔ Spec.int_literal s n ∧ over_limit max (count_digits s) = false.
Proof.
  split; [apply int_of_str_sound |].
  intros [Hlit Hlim]. by apply int_of_str_literal.
Qed.

(** X2.  Blanks around a string never change what [int] makes of it:
    the same value, or the same [ValueError]. *)
Theorem int_ignores_surrounding_blanks (max : Z) (pre s post : string) :
  Spec.blank pre → Spec.blank post →
  int_of_str max (pre +:+ s +:+ post) = int_of_str max s.
Proof.
  intros Hpre Hpost. unfold int_of_str.
  assert (long_from_string (pre +:+ s +:+ post) = long_from_string s) as ->.
  { transitivity (long_from_string (s +:+ post));
      [| by apply long_from_string_app_blank].
    unfold long_from_string. by rewrite (lstrip_blank pre (s +:+ post) Hpre). }
  rewrite !count_digits_app, (count_digits_blank pre Hpre),
    (count_digits_blank post Hpost).
  by replace (0 + (count_digits s + 0))%Z with (count_digits s) by lia.
Qed.

Lemma scan_zeros (k : nat) (s : string) :
  scan false 0 (Spec.zeros k +:+ s) = scan false 0 s.
Proof.
  induction k as [| k IH]; [reflexivity |].
  change (Spec.zeros (S k) +:+ s) with (String "0" (Spec.zeros k +:+ s)).
  rewrite (scan_digit "0" 0) by reflexivity. exact IH.
Qed.

Lemma long_from_string_zeros (k : nat) (n : Z) :
  (0 <= n)%Z → long_from_string (Spec.zeros k +:+ pretty n) = Ok n.
Proof.
  intros Hn. destruct k as [| k]; [apply long_from_string_pretty |].
  change (Spec.zeros (S k) +:+ pretty n)
    with (String "0" (Spec.zeros k +:+ pretty n)).
  rewrite (long_from_string_unsigned "0" _ 0) by reflexivity.
  change (String "0" (Spec.zeros k +:+ pretty n))
    with (Spec.zeros (S k) +:+ pretty n).
  unfold read_digits. rewrite scan_zeros.
  destruct n as [| p | p]; [reflexivity | | lia].
  change (pretty (Zpos p)) with (pretty (Npos p)).
  pose proof (read_digits_pretty 1 p) as Hp. unfold read_digits in Hp.
  rewrite Hp. f_equal.
Qed.

(** X3.  Zeros in front of the numeral of a natural number do not
    change its value, as long as the digits, zeros included, do not
    exceed the limit of the interpreter: the numeral is read in base
    ten. *)
Theorem int_ignores_leading_zeros (max : Z) (k : nat) (n : Z) :
  (0 <= n)%Z →
  over_limit max (count_digits (Spec.zeros k +:+ pretty n)) = false →
  int_of_str max (Spec.zeros k +:+ pretty n) = Ok n.
Proof.
  intros Hn Hlim. unfold int_of_str.
  by rewrite (long_from_string_zeros k n Hn), Hlim.
Qed.

End Conversion.

(** ** URL matching *)

Section Matching.

Import Flask.

Lemma append_empty_r (s : string) : s +:+ "" = s.
Proof.
  induction s as [| c s IH]; [done |].
  change (String c s +:+ "") with (String c (s +:+ "")). by rewrite IH.
Qed.

Lemma strip_prefix_split (pre s rest : string) :
  strip_prefix pre s = Some rest → s = pre +:+ rest.
Proof.
  revert s. induction pre as [| a pre IH]; intros s; cbn [strip_prefix].
  - by intros [= ->].
  - destruct s as [| b s]; [done |].
    destruct (Ascii.eqb_spec a b) as [-> | _]; [| done].
    intros Hs%IH. change (String b pre +:+ rest) with (String b (pre +:+ rest)).
    by rewrite Hs.
Qed.

Lemma matches_static (path : string) :
  matches (PathUnder "/static/") path = true → Spec.under_static path.
Proof.
  cbn [matches].
  destruct (strip_prefix "/static/" path) as [rest |] eqn:Hrest; [| done].
  intros _. exists rest. by apply strip_prefix_split.
Qed.

(** The rules of the application, in the order of their registration. *)
Lemma app_url_map :
  url_map App.app
  = [ {| rule_pattern := PathUnder "/static/"; endpoint := "static";
         methods := [GET; HEAD; OPTIONS] |};
      {| rule_pattern := Exact "/"; endpoint := "home";
         methods := [GET; HEAD; OPTIONS] |};
      {| rule_pattern := Exact "/health"; endpoint := "health";
         methods := [GET; HEAD; OPTIONS] |};
      {| rule_pattern := Exact "/info"; endpoint := "info";
         methods := [GET; HEAD; OPTIONS] |} ].
Proof. reflexivity. Qed.

(** No rule matches a path that is neither a route nor under the
    static folder. *)
Lemma lookup_missing (served : bool) (path : string) (m : method) :
  ¬ Spec.defined path → ¬ Spec.under_static path →
  lookup (if served then mark_served App.app else App.app) path m = Missing.
Proof.
  intros Hdef Hstatic. unfold lookup.
  assert (url_map (if served then mark_served App.app else App.app)
          = url_map App.app) as -> by (by destruct served).
  rewrite app_url_map. cbn [find rule_pattern].
  destruct (matches (PathUnder "/static/") path) eqn:Hs.
  { destruct Hstatic. by apply matches_static. }
  cbn [matches]. unfold Spec.defined in Hdef.
  repeat match goal with
  | |- context [String.eqb ?a ?b] =>
      destruct (String.eqb_spec a b) as [Heq | _];
      [exfalso; apply Hdef; rewrite <- Heq; auto |]
  end.
  reflexivity.
Qed.

Lemma strip_slashes_head (s : string) :
  match strip_slashes s with
  | String c _ => c ≠ "/"%char
  | EmptyString => True
  end.
Proof.
  induction s as [| c s IH]; [done |]. cbn [strip_slashes].
  by destruct (Ascii.eqb_spec c "/").
Qed.

Lemma merge_slashes_pair (c c' : ascii) (r : string) :
  merge_slashes (String c (String c' r))
  = if Ascii.eqb c "/" && Ascii.eqb c' "/"
    then String "/" (merge_slashes r)
    else String c (merge_slashes (String c' r)).
Proof. reflexivity. Qed.

Lemma merge_slashes_empty (s : string) : merge_slashes s = "" → s = "".
Proof.
  destruct s as [| c [| c' r]]; [done | done |]. rewrite merge_slashes_pair.
  by destruct (Ascii.eqb c "/" && Ascii.eqb c' "/").
Qed.

Lemma merge_slashes_head (c : ascii) (s x : string) :
  merge_slashes s = String c x → ∃ r, s = String c r.
Proof.
  destruct s as [| a [| a' r]]; [done | |].
  - intros [= -> _]. by eexists.
  - rewrite merge_slashes_pair. destruct (Ascii.eqb a "/" && Ascii.eqb a' "/") eqn:Hpair.
    + apply andb_true_iff in Hpair as [->%Ascii.eqb_eq _].
      intros [= <- _]. by eexists.
    + intros [= -> _]. by eexists.
Qed.

(** Merging leaves a beginning without slashes as it is. *)
Lemma merge_slashes_prefix (t : string) :
  Spec.slash_free t = true →
  ∀ q u, merge_slashes q = t +:+ u →
    ∃ r, q = t +:+ r ∧ merge_slashes r = u.
Proof.
  induction t as [| a t IH]; intros Hfree q u Hq.
  - by exists q.
  - cbn [Spec.slash_free] in Hfree.
    apply andb_true_iff in Hfree as [Ha Hfree].
    change (String a t +:+ u) with (String a (t +:+ u)) in Hq.
    destruct q as [| c [| c' r]]; [done | |].
    + injection Hq as -> Hrest.
      destruct t; [| done]. exists "". change ("" +:+ u) with u in Hrest.
      by subst u.
    + rewrite merge_slashes_pair in Hq.
      destruct (Ascii.eqb c "/" && Ascii.eqb c' "/") eqn:Hpair.
      * injection Hq as <- _. by rewrite Ascii.eqb_refl in Ha.
      * injection Hq as -> Hrest.
        destruct (IH Hfree (String c' r) u Hrest) as (r' & -> & Hr').
        by exists r'.
Qed.

Lemma merge_slashes_exact (t s : string) :
  Spec.slash_free t = true → merge_slashes s = t → s = t.
Proof.
  intros Hfree Ht.
  destruct (merge_slashes_prefix t Hfree s "") as (r' & Hq & Hr').
  - by rewrite Ht, append_empty_r.
  - apply merge_slashes_empty in Hr' as ->. by rewrite Hq, append_empty_r.
Qed.

(** Merging the doubled slashes of a path that starts with one slash
    makes neither a route nor a path under the static folder of a path
    that is none. *)
Lemma merge_slashes_unrouted (q : string) :
  match q with String c _ => c ≠ "/"%char | EmptyString => True end →
  ¬ Spec.defined (String "/" q) → ¬ Spec.under_static (String "/" q) →
  ¬ Spec.defined (merge_slashes (String "/" q))
  ∧ ¬ Spec.under_static (merge_slashes (String "/" q)).
Proof.
  intros Hhead Hdef Hstatic.
  destruct q as [| c r].
  { destruct Hdef. by left. }
  assert (merge_slashes (String "/" (String c r))
          = String "/" (merge_slashes (String c r))) as ->.
  { rewrite merge_slashes_pair. destruct (Ascii.eqb_spec c "/"); [done |].
    by rewrite andb_false_r. }
  remember (merge_slashes (String c r)) as mq eqn:Hmq. symmetry in Hmq.
  split.
  - intros [Hm | [Hm | Hm]]; injection Hm as ->.
    + by apply merge_slashes_empty in Hmq.
    + apply (merge_slashes_exact "health") in Hmq; [| done].
      destruct Hdef. right; left. by rewrite Hmq.
    + apply (merge_slashes_exact "info") in Hmq; [| done].
      destruct Hdef. right; right. by rewrite Hmq.
  - intros [rest Hm]. injection Hm as ->.
    destruct (merge_slashes_prefix "static" eq_refl (String c r)
                (String "/" rest) Hmq) as (r' & Hq & Hr').
    apply merge_slashes_head in Hr' as [r'' ->].
    destruct Hstatic. exists r''. by rewrite Hq.
Qed.

(** URL matching fails outside the routes and the static folder. *)
Lemma match_request_unrouted (served : bool) (req : request) :
  normalize (req_path req) ≠ "" →
  ¬ Spec.defined (normalize (req_path req)) →
  ¬ Spec.under_static (normalize (req_path req)) →
  match_request (if served then mark_served App.app else App.app) req
  = NotFound.
Proof.
  intros Hne Hdef Hstatic. unfold match_request.
  destruct (req_path req) as [| c0 raw] eqn:Hraw; [done |].
  cbn [normalize] in *.
  pose proof (strip_slashes_head (String c0 raw)) as Hhead.
  set (q := strip_slashes (String c0 raw)) in *.
  destruct (merge_slashes_unrouted q Hhead Hdef Hstatic) as [Hdef' Hstatic'].
  rewrite (lookup_missing served _ _ Hdef Hstatic).
  by rewrite (lookup_missing served _ _ Hdef' Hstatic').
Qed.

End Matching.

(** ** The three endpoints *)

Section Endpoints.

Import Flask.

Variable environ : gmap string string.

(** A request to a defined route reaches its rule, whatever else it
    carries. *)
Ltac route_cases req :=
  destruct req as [m path query headers body]; cbn [req_method req_path] in *.

(** C1.  Every GET request to [/] is answered with status 200 and a body
    that is the JSON object with the three fields [message], [status]
    and [version] of the specification, and no other field. *)
Theorem get_home (req : request) :
  req_method req = GET → req_path req = "/" →
  status (fst (App.handle req (App.loaded environ))) = 200
  ∧ data (fst (App.handle req (App.loaded environ))) = JSON Spec.home_body
  ∧ dom Spec.home_body = {["message"; "status"; "version"]}.
Proof.
  route_cases req. intros -> ->. repeat split; vm_compute; reflexivity.
Qed.

(** C2.  Every GET request to [/health] is answered with status 200 and
    a body that is the JSON object with the two fields [status] and
    [service] of the specification, and no other field; [health] is the
    one view that gives the status code next to its response, [home] and
    [info] return the response alone. *)
Theorem get_health (req : request) :
  req_method req = GET → req_path req = "/health" →
  status (fst (App.handle req (App.loaded environ))) = 200
  ∧ data (fst (App.handle req (App.loaded environ))) = JSON Spec.health_body
  ∧ dom Spec.health_body = {["status"; "service"]}
  ∧ (∀ p, ∃ r, fst (App.health req p) = RvWithStatus r 200)
  ∧ (∀ p, ∃ r, fst (App.home req p) = RvResponse r)
  ∧ (∀ p, ∃ r, fst (App.info req p) = RvResponse r).
Proof.
  route_cases req. intros -> ->.
  split; [| split; [| split; [| repeat split]]];
    try (vm_compute; reflexivity); intros p; eexists; reflexivity.
Qed.

(** C3.  Every GET request to [/info] is answered with status 200 and a
    body that is the JSON object with the four fields [app],
    [description], [security] and [pipeline] of the specification, and
    no other field. *)
Theorem get_info (req : request) :
  req_method req = GET → req_path req = "/info" →
  status (fst (App.handle req (App.loaded environ))) = 200
  ∧ data (fst (App.handle req (App.loaded environ))) = JSON Spec.info_body
  ∧ dom Spec.info_body = {["app"; "description"; "security"; "pipeline"]}.
Proof.
  route_cases req. intros -> ->. repeat split; vm_compute; reflexivity.
Qed.

(** The answer outside the routes and the static folder. *)
Lemma answer_unrouted (req : request) :
  normalize (req_path req) ≠ "" →
  ¬ Spec.defined (normalize (req_path req)) →
  ¬ Spec.under_static (normalize (req_path req)) →
  Spec.answer environ req = finalize req (error_response 404 []).
Proof.
  intros Hne Hdef Hstatic.
  unfold Spec.answer, App.handle, full_dispatch_request, dispatch_request.
  cbn [App.proc_app App.served App.loaded].
  by rewrite (match_request_unrouted true req Hne Hdef Hstatic).
Qed.

(** C5, amended.  A request whose path, its leading slashes reduced to
    one, is not empty, is none of [/], [/health] and [/info] and does
    not lie under [/static/] matches no rule, and is answered with the
    framework's not-found response, status 404, whatever its method
    (without a body when the method is HEAD). *)
Theorem unrouted_path_not_found (req : request) :
  normalize (req_path req) ≠ "" →
  ¬ Spec.defined (normalize (req_path req)) →
  ¬ Spec.under_static (normalize (req_path req)) →
  match_request App.app req = NotFound
  ∧ Spec.answer environ req = finalize req (error_response 404 [])
  ∧ status (Spec.answer environ req) = 404.
Proof.
  intros Hne Hdef Hstatic.
  split; [exact (match_request_unrouted false req Hne Hdef Hstatic) |].
  rewrite (answer_unrouted req Hne Hdef Hstatic).
  split; [reflexivity |]. unfold finalize. by destruct (req_method req).
Qed.

(** C8.  The response to a GET request to each of the three defined
    routes has the content type [application/json]. *)
Theorem defined_routes_json (req : request) :
  req_method req = GET → Spec.defined (req_path req) →
  content_type (fst (App.handle req (App.loaded environ))) = "application/json".
Proof.
  route_cases req. intros -> [-> | [-> | ->]]; reflexivity.
Qed.

(** C6.  Two requests with the same method to the same defined route
    get the same response (status, content type and body), whatever
    their query strings, headers and bodies, and whatever the
    environment of the process; a view returns the same value for every
    request and in every state. *)
Theorem responses_ignore_contents (environ' : gmap string string)
    (r1 r2 : request) :
  req_method r1 = req_method r2 →
  req_path r1 = req_path r2 →
  Spec.defined (req_path r1) →
  fst (App.handle r1 (App.loaded environ))
    = fst (App.handle r2 (App.loaded environ'))
  ∧ (∀ f q1 q2 p1 p2, fst (App.call f q1 p1) = fst (App.call f q2 p2)).
Proof.
  intros Hm Hp Hdef. split.
  - destruct r1 as [m1 path1 ? ? ?], r2 as [m2 path2 ? ? ?].
    cbn [req_method req_path] in *. subst m2 path2.
    destruct Hdef as [-> | [-> | ->]]; destruct m1; reflexivity.
  - intros [] q1 q2 p1 p2; reflexivity.
Qed.

(** The answer depends on the request through its method and through
    its path as the URL map reads it. *)
Lemma answer_by_normal_path (req req' : request) :
  req_method req = req_method req' →
  normalize (req_path req) = normalize (req_path req') →
  Spec.answer environ req = Spec.answer environ req'.
Proof.
  intros Hm Hp.
  unfold Spec.answer, App.handle, full_dispatch_request, dispatch_request,
    match_request, finalize.
  rewrite Hm, Hp.
  destruct (normalize (req_path req')) as [| c0 p0].
  - by destruct (lookup _ "/" (req_method req')).
  - destruct (lookup _ (String c0 p0) (req_method req')) as [r | valid |].
    + destruct (req_method req'); try reflexivity;
        (destruct (view_functions _ !! endpoint r) as [[| f] |];
           [reflexivity | by destruct f | reflexivity]).
    + reflexivity.
    + by destruct (lookup _ (merge_slashes (String c0 p0)) (req_method req')).
Qed.

Lemma answer_defined (req : request) (path : string) :
  normalize (req_path req) = path → Spec.defined path →
  Spec.answer environ req = Spec.answer environ (Spec.bare (req_method req) path).
Proof.
  intros Hp Hdef. apply answer_by_normal_path; [reflexivity |].
  rewrite Hp. by destruct Hdef as [-> | [-> | ->]].
Qed.

Lemma defined_dec (path : string) :
  Spec.defined path ∨ ¬ Spec.defined path.
Proof.
  unfold Spec.defined.
  destruct (decide (path = "/")); [tauto |].
  destruct (decide (path = "/health")); [tauto |].
  destruct (decide (path = "/info")); tauto.
Qed.

Lemma defined_not_empty (path : string) : Spec.defined path → path ≠ "".
Proof. by intros [-> | [-> | ->]]. Qed.

(** No request outside the static folder ends in an error of the
    application: the answers are 200, 308, 404 and 405. *)
Lemma handle_status (req : request) :
  ¬ Spec.under_static (normalize (req_path req)) →
  status (Spec.answer environ req) = 200
  ∨ status (Spec.answer environ req) = 308
  ∨ status (Spec.answer environ req) = 404
  ∨ status (Spec.answer environ req) = 405.
Proof.
  intros Hstatic.
  destruct (defined_dec (normalize (req_path req))) as [Hdef | Hundef].
  - rewrite (answer_defined req _ eq_refl Hdef).
    destruct Hdef as [-> | [-> | ->]]; destruct (req_method req);
      vm_compute; auto.
  - destruct (decide (normalize (req_path req) = "")) as [Hempty | Hne].
    + destruct req as [m [| c0 raw] ? ? ?]; [| done].
      destruct m; vm_compute; auto.
    + rewrite (answer_unrouted req Hne Hundef Hstatic).
      unfold finalize. destruct (req_method req); auto.
Qed.







End Endpoints.

(** ** Methods *)

Section Methods.

Import Flask.

Variable environ : gmap string string.

Ltac by_route_and_method req Hdef :=
  destruct req as [m path query headers body];
  cbn [req_method req_path] in *;
  destruct Hdef as [-> | [-> | ->]]; destruct m.

(** X7.  Outside the static folder, and for a path that is not empty,
    the status of an answer is decided by the method and by the path
    with its leading slashes reduced to one: 404 exactly for a path
    that is none of the three routes, 405 exactly for a route asked with
    a method other than GET, HEAD and OPTIONS, 200 exactly for a route
    asked with one of these. *)
Theorem status_by_path_and_method (req : request) :
  normalize (req_path req) ≠ "" →
  ¬ Spec.under_static (normalize (req_path req)) →
  (status (Spec.answer environ req) = 200
     ↔ Spec.defined (normalize (req_path req)) ∧ Spec.allowed (req_method req))
  ∧ (status (Spec.answer environ req) = 404
     ↔ ¬ Spec.defined (normalize (req_path req)))
  ∧ (status (Spec.answer environ req) = 405
     ↔ Spec.defined (normalize (req_path req))
       ∧ ¬ Spec.allowed (req_method req)).
Proof.
  intros Hne Hstatic.
  destruct (defined_dec (normalize (req_path req))) as [Hdef | Hundef].
  - rewrite (answer_defined environ req _ eq_refl Hdef).
    assert (Spec.defined (normalize (req_path req))) as Hkeep by done.
    destruct Hdef as [Hp | [Hp | Hp]]; rewrite Hp in Hkeep |- *;
      destruct (req_method req);
      change (status (Spec.answer environ _)) with 200
      || change (status (Spec.answer environ _)) with 405;
      unfold Spec.allowed; intuition congruence.
  - rewrite (answer_unrouted environ req Hne Hundef Hstatic).
    assert (status (finalize req (error_response 404 [])) = 404) as ->
      by (unfold finalize; by destruct (req_method req)).
    intuition congruence.
Qed.

(** X8.  A defined route asked with POST, PUT, PATCH or DELETE is
    refused with 405, and the answer lists GET, HEAD and OPTIONS as the
    methods allowed. *)
Theorem other_methods_refused (req : request) :
  Spec.defined (req_path req) →
  ¬ Spec.allowed (req_method req) →
  Spec.answer environ req = error_response 405 [GET; HEAD; OPTIONS].
Proof.
  intros Hdef Hm. unfold Spec.allowed in Hm.
  by_route_and_method req Hdef; try reflexivity; exfalso; auto.
Qed.

(** X9.  HEAD on a defined route is answered as GET on it, status and
    content type, with no body. *)
Theorem head_mirrors_get (req req' : request) :
  Spec.defined (req_path req) →
  req_method req = HEAD →
  req_method req' = GET →
  req_path req' = req_path req →
  status (Spec.answer environ req) = status (Spec.answer environ req')
  ∧ content_type (Spec.answer environ req)
    = content_type (Spec.answer environ req')
  ∧ data (Spec.answer environ req) = NoBody.
Proof.
  intros Hdef Hm Hm' Hp'.
  destruct req' as [m' path' ? ? ?]. cbn [req_method req_path] in *.
  subst m' path'.
  by_route_and_method req Hdef; try discriminate; done.
Qed.

(** X10.  OPTIONS on a defined route is answered by the framework, not
    by the view: status 200, no body, and GET, HEAD and OPTIONS listed
    as the methods allowed. *)
Theorem options_answered_by_framework (req : request) :
  Spec.defined (req_path req) →
  req_method req = OPTIONS →
  Spec.answer environ req = options_response [GET; HEAD; OPTIONS].
Proof.
  intros Hdef Hm. by_route_and_method req Hdef; try discriminate; done.
Qed.

(** X11.  Outside the static folder, an answer carries a JSON object
    exactly when the request is a GET on one of the three routes, the
    path read with its leading slashes reduced to one: no error answer,
    no redirection, and no answer to HEAD or OPTIONS, has one. *)
Theorem json_only_for_get (req : request) :
  ¬ Spec.under_static (normalize (req_path req)) →
  (∃ obj, data (Spec.answer environ req) = JSON obj)
  ↔ req_method req = GET ∧ Spec.defined (normalize (req_path req)).
Proof.
  intros Hstatic.
  destruct (defined_dec (normalize (req_path req))) as [Hdef | Hundef].
  - rewrite (answer_defined environ req _ eq_refl Hdef).
    assert (Spec.defined (normalize (req_path req))) as Hkeep by done.
    destruct Hdef as [Hp | [Hp | Hp]]; rewrite Hp in Hkeep |- *;
      destruct (req_method req);
      (split; [intros [obj Hobj]; first [done | by vm_compute in Hobj]
              | intros [Hm _]; first [discriminate Hm | eexists; reflexivity]]).
  - split; [| tauto]. intros [obj Hobj]. exfalso.
    destruct (decide (normalize (req_path req) = "")) as [Hempty | Hne].
    + destruct req as [m [| c0 raw] ? ? ?]; [| done].
      destruct m; by vm_compute in Hobj.
    + rewrite (answer_unrouted environ req Hne Hundef Hstatic) in Hobj.
      unfold finalize in Hobj. by destruct (req_method req).
Qed.

End Methods.

(** ** Start-up *)

Section Startup.

Import Flask.

Variable environ : gmap string string.
Variable plat : Py.platform.

(** The module body raises nothing: start-up is the guarded block. *)
Lemma main_unfold (name : string) :
  App.main name environ plat
  = if String.eqb name "__main__" then
      match Py.int (Py.max_str_digits plat)
              (Py.environ_get environ "PORT" (Py.VInt 5000)) with
      | Py.Raise e => ([], App.Died (App.Uncaught e))
      | Py.Ok port =>
          match run environ plat "0.0.0.0" port false with
          | (evs, Listening h p) => (evs, App.Serving h p (App.loaded environ))
          | (evs, BindFailed h p) => (evs, App.Died (App.BindRefused h p))
          | (evs, RunRaised e) => (evs, App.Died (App.Uncaught e))
          | (evs, Returned) => (evs, App.Finished)
          | (evs, Inherited) =>
              (evs, App.ServingInherited (App.loaded environ))
          end
      end
    else ([], App.Imported).
Proof. reflexivity. Qed.

Lemma run_plain (host : string) (port : Z) (debug : bool) :
  Spec.plain environ →
  run environ plat host port debug
  = match Py.getaddrinfo port with
    | Py.Overflow => ([], RunRaised Py.OverflowError)
    | Py.Gaierror => server_bind plat host port
    | Py.Resolved p => server_bind plat host p
    end.
Proof.
  intros (Hcli & Hmain & _). unfold run.
  rewrite !bool_decide_eq_false_2; [done | by rewrite Hmain | by rewrite Hcli].
Qed.

(** The resolver on a port: what it gives is the port modulo 65536, and
    it fails or overflows only outside 0..65535. *)
Lemma getaddrinfo_cases (port : Z) :
  match Py.getaddrinfo port with
  | Py.Resolved p => p = port mod 65536 ∧ (0 <= p <= 65535)%Z
  | Py.Gaierror | Py.Overflow => ¬ (0 <= port <= 65535)%Z
  end.
Proof.
  unfold Py.getaddrinfo.
  destruct ((port <? - 2 ^ 63) || (2 ^ 63 <=? port))%Z eqn:Hfit.
  - apply orb_true_iff in Hfit as [H%Z.ltb_lt | H%Z.leb_le]; lia.
  - destruct (Z.ltb_spec (port mod 2 ^ 32) (2 ^ 31)) as [Hw | Hw].
    + split.
      * apply Z.mod_mod_divide. exists 65536. reflexivity.
      * pose proof (Z.mod_pos_bound (port mod 2 ^ 32) 65536 eq_refl). lia.
    + intros Hport. rewrite Z.mod_small in Hw; lia.
Qed.

Lemma getaddrinfo_port (port : Z) :
  (0 <= port <= 65535)%Z → Py.getaddrinfo port = Py.Resolved port.
Proof.
  intros Hport. pose proof (getaddrinfo_cases port) as Hc.
  destruct (Py.getaddrinfo port) as [p | |]; [| done | done].
  destruct Hc as [-> _]. by rewrite Z.mod_small by lia.
Qed.

(** The start-up block with a port number that [int] accepts. *)
Lemma main_with_port (v : Py.value) (port : Z) :
  Spec.plain environ →
  Spec.port_number port →
  Py.environ_get environ "PORT" (Py.VInt 5000) = v →
  Py.int (Py.max_str_digits plat) v = Py.Ok port →
  App.main "__main__" environ plat = Spec.started environ plat port.
Proof.
  intros Hplain Hport Hv Hint. unfold Spec.port_number in Hport.
  rewrite main_unfold. change (String.eqb "__main__" "__main__") with true.
  cbv iota. rewrite Hv, Hint, (run_plain _ _ _ Hplain).
  rewrite getaddrinfo_port by lia.
  unfold server_bind, Spec.started.
  destruct (Z.leb_spec 0 port); [| lia].
  destruct (Z.leb_spec port 65535); [| lia].
  destruct (Z.eqb_spec port 0); [lia |]. cbn [andb].
  by destruct (Py.accepts plat "0.0.0.0" port).
Qed.

(** C4, amended.  In an environment without the variables of the
    framework's command and reloader: with PORT set to the numeral of a
    port number [n], from 1 to 65535, and more generally to any literal
    of value [n] within the interpreter's limit on digits, start-up
    binds on all interfaces ([0.0.0.0]) at port [n]; with PORT unset it
    binds on all interfaces at port 5000. *)
Theorem port_from_environment :
  Spec.plain environ →
  (∀ n : Z, Spec.port_number n → environ !! "PORT" = Some (pretty n) →
     App.main "__main__" environ plat = Spec.started environ plat n)
  ∧ (∀ s n, Spec.port_number n → environ !! "PORT" = Some s →
     Spec.int_literal s n → Spec.within_limit plat s →
     App.main "__main__" environ plat = Spec.started environ plat n)
  ∧ (environ !! "PORT" = None →
     App.main "__main__" environ plat = Spec.started environ plat 5000).
Proof.
  intros Hplain. split; [| split].
  - intros n Hn Hs. apply (main_with_port (Py.VStr (pretty n))); [done.. | |].
    + unfold Py.environ_get. by rewrite Hs.
    + apply int_of_str_port. unfold Spec.port_number in Hn. lia.
  - intros s n Hn Hs Hlit Hlim.
    apply (main_with_port (Py.VStr s)); [done.. | |].
    + unfold Py.environ_get. by rewrite Hs.
    + by apply int_of_str_literal.
  - intros Hnone. apply (main_with_port (Py.VInt 5000)); [done | | | done].
    + unfold Spec.port_number. lia.
    + unfold Py.environ_get. by rewrite Hnone.
Qed.

(** Start-up with a port that [int] rejects. *)
Lemma main_raises (s : string) (e : Py.exn) :
  environ !! "PORT" = Some s →
  Py.int_of_str (Py.max_str_digits plat) s = Py.Raise e →
  App.main "__main__" environ plat = ([], App.Died (App.Uncaught e)).
Proof.
  intros Hs Hint. rewrite main_unfold.
  change (String.eqb "__main__" "__main__") with true. cbv iota.
  unfold Py.environ_get. rewrite Hs. cbn [Py.int]. by rewrite Hint.
Qed.

(** C10.  With PORT set to a string that is not an integer literal,
    start-up ends with the [ValueError] of the conversion, uncaught, and
    no bind was attempted: the server is not started. *)
Theorem invalid_port_raises (s : string) :
  environ !! "PORT" = Some s →
  (¬ ∃ n, Spec.int_literal s n) →
  App.main "__main__" environ plat = ([], App.Died (App.Uncaught Py.ValueError)).
Proof.
  intros Hs Hlit. apply (main_raises s); [exact Hs |].
  by apply int_of_str_not_literal.
Qed.

(** X4.  With PORT set to the empty string, or to blanks only, start-up
    does not fall back to 5000: the conversion raises [ValueError] and
    no bind is attempted. *)
Theorem blank_port_raises (s : string) :
  Spec.blank s →
  environ !! "PORT" = Some s →
  App.main "__main__" environ plat = ([], App.Died (App.Uncaught Py.ValueError)).
Proof.
  intros Hblank Hs. apply (main_raises s); [exact Hs |].
  by apply int_of_str_blank.
Qed.

(** X6.  Under any other name than [__main__] the module is only
    loaded: PORT is not converted, whatever it holds, and no bind is
    attempted. *)
Theorem import_starts_nothing (name : string) :
  name ≠ "__main__" →
  App.main name environ plat = ([], App.Imported).
Proof.
  intros Hname. rewrite main_unfold.
  by destruct (String.eqb_spec name "__main__").
Qed.

Lemma configured_port_int (port : Z) :
  Py.int (Py.max_str_digits plat) (Py.environ_get environ "PORT" (Py.VInt 5000))
  = Py.Ok port →
  Spec.configured_port environ port.
Proof.
  unfold Py.environ_get, Spec.configured_port.
  destruct (environ !! "PORT") as [s |]; cbn [Py.int].
  - intros [Hlit _]%int_of_str_sound. right. by exists s.
  - intros [= <-]. by left.
Qed.

(** The conversion raises on what is no literal and on a literal over
    the limit, and on nothing else. *)
Lemma int_raises_cases (e : Py.exn) :
  Py.int (Py.max_str_digits plat) (Py.environ_get environ "PORT" (Py.VInt 5000))
  = Py.Raise e →
  e = Py.ValueError
  ∧ ∃ s, environ !! "PORT" = Some s
         ∧ ((¬ ∃ n, Spec.int_literal s n) ∨ ¬ Spec.within_limit plat s).
Proof.
  unfold Py.environ_get.
  destruct (environ !! "PORT") as [s |]; cbn [Py.int]; [| done].
  intros Hint.
  split; [by apply (int_of_str_error (Py.max_str_digits plat) s) |].
  exists s. split; [done |].
  unfold Py.int_of_str, Spec.within_limit in *.
  destruct (Py.long_from_string s) as [n | e'] eqn:Hsyn.
  - right. by destruct (Py.over_limit _ _).
  - left. apply long_from_string_raises.
    by rewrite Hsyn, (long_from_string_error s e' Hsyn).
Qed.

(** C7, amended.  In an environment without the variables of the
    framework's command and reloader, start-up ends in one of four
    ways.  It dies of the uncaught [ValueError] of the conversion, with
    PORT set to a string that is no integer literal or has more digits
    than the interpreter's limit, before any bind.  It dies of an
    uncaught [OverflowError], with a configured port outside 0..65535,
    raised before the bind or by it.  It dies of a refused bind at
    [0.0.0.0] and the configured port modulo 65536.  Or it serves
    there, at the port the system picks when that port is 0.  The three
    deaths leave the exit status 1.  Once serving, every request outside
    the static folder is answered with status 200, 308, 404 or 405. *)
Theorem startup_failure_modes :
  Spec.plain environ →
  match App.main "__main__" environ plat with
  | (evs, App.Died (App.Uncaught e)) =>
      ((e = Py.ValueError ∧ evs = []
        ∧ ∃ s, environ !! "PORT" = Some s
               ∧ ((¬ ∃ n, Spec.int_literal s n) ∨ ¬ Spec.within_limit plat s))
       ∨ (e = Py.OverflowError
          ∧ ∃ n, Spec.configured_port environ n ∧ ¬ (0 <= n <= 65535)%Z
                 ∧ (evs = [] ∨ evs = [Bind "0.0.0.0" n])))
      ∧ App.exit_status (App.Died (App.Uncaught e)) = Some 1
  | (evs, App.Died (App.BindRefused host port)) =>
      evs = [Bind host port] ∧ host = "0.0.0.0"
      ∧ (∃ n, Spec.configured_port environ n ∧ port = n mod 65536)
      ∧ Py.accepts plat host port = false
      ∧ App.exit_status (App.Died (App.BindRefused host port)) = Some 1
  | (evs, App.Serving host port p) =>
      host = "0.0.0.0" ∧ p = App.loaded environ
      ∧ ∃ n, Spec.configured_port environ n
             ∧ evs = [Bind host (n mod 65536)]
             ∧ Py.accepts plat host (n mod 65536) = true
             ∧ port = (if (n mod 65536 =? 0)%Z then Py.ephemeral plat
                       else n mod 65536)
  | (_, App.Imported) | (_, App.Finished) | (_, App.ServingInherited _) =>
      False
  end
  ∧ (∀ req,
       ¬ Spec.under_static (normalize (req_path req)) →
       status (Spec.answer environ req) = 200
       ∨ status (Spec.answer environ req) = 308
       ∨ status (Spec.answer environ req) = 404
       ∨ status (Spec.answer environ req) = 405).
Proof.
  intros Hplain. split; [| apply handle_status].
  pose proof configured_port_int as Hport.
  pose proof int_raises_cases as Hraise.
  rewrite main_unfold. change (String.eqb "__main__" "__main__") with true.
  cbv iota.
  destruct (Py.int (Py.max_str_digits plat)
              (Py.environ_get environ "PORT" (Py.VInt 5000)))
    as [n | e] eqn:Hint.
  - specialize (Hport n eq_refl). rewrite (run_plain _ _ _ Hplain).
    pose proof (getaddrinfo_cases n) as Hgai.
    destruct (Py.getaddrinfo n) as [p | |].
    + destruct Hgai as [-> Hrange]. unfold server_bind.
      destruct (Z.leb_spec 0 (n mod 65536)); [| lia].
      destruct (Z.leb_spec (n mod 65536) 65535); [| lia]. cbn [andb].
      destruct (Py.accepts plat "0.0.0.0" (n mod 65536)) eqn:Hnet;
        eauto 10.
    + unfold server_bind.
      destruct ((0 <=? n) && (n <=? 65535))%Z eqn:Hrange.
      { apply andb_true_iff in Hrange as [H1%Z.leb_le H2%Z.leb_le]. lia. }
      split; [| done]. right. eauto 10.
    + split; [| done]. right. eauto 10.
  - destruct (Hraise e eq_refl) as (-> & s & Hs & Hwhy).
    split; [| done]. left. eauto 10.
Qed.

End Startup.

(** ** Instances *)

Section Instances.

Import Flask.

Lemma get_home_witness :
  req_method (Spec.loaded_request GET "/") = GET
  ∧ req_path (Spec.loaded_request GET "/") = "/"
  ∧ status (fst (App.handle (Spec.loaded_request GET "/") (App.loaded ∅))) = 200
  ∧ data (fst (App.handle (Spec.loaded_request GET "/") (App.loaded ∅)))
    = JSON Spec.home_body
  ∧ dom Spec.home_body = {["message"; "status"; "version"]}.
Proof.
  split; [reflexivity |]. split; [reflexivity |].
  apply (get_home ∅ (Spec.loaded_request GET "/")); reflexivity.
Defined.

Lemma get_health_witness :
  status (fst (App.handle (Spec.bare GET "/health") (App.loaded ∅))) = 200
  ∧ data (fst (App.handle (Spec.bare GET "/health") (App.loaded ∅)))
    = JSON Spec.health_body
  ∧ dom Spec.health_body = {["status"; "service"]}
  ∧ (∀ p, ∃ r, fst (App.health (Spec.bare GET "/health") p) = RvWithStatus r 200)
  ∧ (∀ p, ∃ r, fst (App.home (Spec.bare GET "/health") p) = RvResponse r)
  ∧ (∀ p, ∃ r, fst (App.info (Spec.bare GET "/health") p) = RvResponse r).
Proof.
  apply (get_health ∅ (Spec.bare GET "/health")); reflexivity.
Defined.

Lemma get_info_witness :
  status (fst (App.handle (Spec.bare GET "/info") (App.loaded ∅))) = 200
  ∧ data (fst (App.handle (Spec.bare GET "/info") (App.loaded ∅)))
    = JSON Spec.info_body
  ∧ dom Spec.info_body = {["app"; "description"; "security"; "pipeline"]}.
Proof.
  apply (get_info ∅ (Spec.bare GET "/info")); reflexivity.
Defined.

(** A path that is none of the three strings and is routed all the
    same: [//health] is read as [/health] and answered by [health];
    and [/static/x], asked with POST, is refused with 405, not 404. *)
Lemma slashed_path_is_routed :
  "//health" ≠ "/" ∧ "//health" ≠ "/health" ∧ "//health" ≠ "/info"
  ∧ Spec.answer ∅ (Spec.bare GET "//health") = jsonify Spec.health_body
  ∧ status (Spec.answer ∅ (Spec.bare POST "/static/x")) = 405.
Proof.
  repeat split; try discriminate; vm_compute; reflexivity.
Qed.

Lemma unrouted_path_not_found_witness :
  match_request App.app (Spec.bare POST "/metrics//daily") = NotFound
  ∧ Spec.answer ∅ (Spec.bare POST "/metrics//daily")
    = finalize (Spec.bare POST "/metrics//daily") (error_response 404 [])
  ∧ status (Spec.answer ∅ (Spec.bare POST "/metrics//daily")) = 404.
Proof.
  apply (unrouted_path_not_found ∅ (Spec.bare POST "/metrics//daily")).
  - discriminate.
  - intros [H | [H | H]]; discriminate H.
  - intros [rest H]. discriminate H.
Defined.

Lemma defined_routes_json_witness :
  content_type (fst (App.handle (Spec.bare GET "/info") (App.loaded ∅)))
  = "application/json".
Proof.
  apply (defined_routes_json ∅ (Spec.bare GET "/info")); [reflexivity |].
  right; right; reflexivity.
Defined.

Lemma responses_ignore_contents_witness :
  fst (App.handle (Spec.bare GET "/health") (App.loaded ∅))
  = fst (App.handle (Spec.loaded_request GET "/health")
           (App.loaded {["PORT" := "8080"]})).
Proof.
  apply (responses_ignore_contents ∅ {["PORT" := "8080"]}
           (Spec.bare GET "/health") (Spec.loaded_request GET "/health"));
    [reflexivity | reflexivity | right; left; reflexivity].
Defined.


(** With PORT set to 70000 the server listens at port 4464. *)
Lemma port_wraps_modulo_65536 :
  Py.int_of_str 4300 "70000" = Py.Ok 70000
  ∧ App.main "__main__" {["PORT" := "70000"]} Spec.open_network
    = ([Bind "0.0.0.0" 4464],
       App.Serving "0.0.0.0" 4464 (App.loaded {["PORT" := "70000"]}))
  ∧ ¬ Spec.binds_at {["PORT" := "70000"]} Spec.open_network 70000.
Proof.
  split; [reflexivity |]. split; [reflexivity |].
  unfold Spec.binds_at. intros Hsame.
  apply (f_equal fst) in Hsame. discriminate Hsame.
Qed.

Lemma port_from_environment_witness :
  Spec.plain {["PORT" := "8080"]}
  ∧ App.main "__main__" {["PORT" := "8080"]} Spec.open_network
    = ([Bind "0.0.0.0" 8080],
       App.Serving "0.0.0.0" 8080 (App.loaded {["PORT" := "8080"]}))
  ∧ App.main "__main__" ∅ Spec.open_network
    = ([Bind "0.0.0.0" 5000], App.Serving "0.0.0.0" 5000 (App.loaded ∅)).
Proof.
  split; [by repeat split |]. split.
  - apply (proj1 (port_from_environment {["PORT" := "8080"]} Spec.open_network
                    ltac:(by repeat split)) 8080);
      [unfold Spec.port_number; lia | reflexivity].
  - apply (proj2 (proj2 (port_from_environment ∅ Spec.open_network
                           ltac:(by repeat split)))).
    reflexivity.
Defined.

Lemma invalid_port_raises_witness :
  App.main "__main__" {["PORT" := "http"]} Spec.open_network
  = ([], App.Died (App.Uncaught Py.ValueError)).
Proof.
  apply (invalid_port_raises {["PORT" := "http"]} Spec.open_network "http");
    [reflexivity |].
  apply (proj2 (long_from_string_raises "http")). reflexivity.
Defined.

(** With PORT set to [abc], on a network that accepts every bind,
    start-up dies of the conversion and no bind is attempted: a failure
    that is not a refused bind. *)
Lemma startup_fails_without_bind :
  App.main "__main__" {["PORT" := "abc"]} Spec.open_network
  = ([], App.Died (App.Uncaught Py.ValueError))
  ∧ ¬ Spec.bind_is_only_failure {["PORT" := "abc"]} Spec.open_network.
Proof.
  split; [reflexivity |].
  intros Hclaim.
  destruct (Hclaim (App.Uncaught Py.ValueError) eq_refl) as (h & p & Hwhy & _).
  discriminate Hwhy.
Qed.

Lemma startup_failure_modes_witness :
  Spec.plain {["PORT" := "-1"]}
  ∧ ((Py.OverflowError = Py.ValueError ∧ [Bind "0.0.0.0" (-1)] = []
      ∧ ∃ s, ({["PORT" := "-1"]} : gmap string string) !! "PORT" = Some s
             ∧ ((¬ ∃ n, Spec.int_literal s n)
                ∨ ¬ Spec.within_limit Spec.open_network s))
     ∨ (Py.OverflowError = Py.OverflowError
        ∧ ∃ n, Spec.configured_port {["PORT" := "-1"]} n
               ∧ ¬ (0 <= n <= 65535)%Z
               ∧ ([Bind "0.0.0.0" (-1)] = []
                  ∨ [Bind "0.0.0.0" (-1)] = [Bind "0.0.0.0" n]))).
Proof.
  split; [by repeat split |].
  exact (proj1 (proj1 (startup_failure_modes {["PORT" := "-1"]}
                         Spec.open_network ltac:(by repeat split)))).
Defined.

Lemma int_ignores_surrounding_blanks_witness :
  Py.int_of_str 4300 ("  " +:+ "8080" +:+ " ") = Py.int_of_str 4300 "8080".
Proof.
  apply (int_ignores_surrounding_blanks 4300 "  " "8080" " "); reflexivity.
Defined.

Lemma int_ignores_leading_zeros_witness :
  Py.int_of_str 4300 (Spec.zeros 2 +:+ pretty 8080) = Py.Ok 8080.
Proof.
  apply (int_ignores_leading_zeros 4300 2 8080); [lia | reflexivity].
Defined.

Lemma blank_port_raises_witness :
  App.main "__main__" {["PORT" := ""]} Spec.open_network
  = ([], App.Died (App.Uncaught Py.ValueError)).
Proof.
  apply (blank_port_raises {["PORT" := ""]} Spec.open_network "");
    reflexivity.
Defined.

Lemma import_starts_nothing_witness :
  App.main "app" {["PORT" := "abc"]} Spec.open_network = ([], App.Imported).
Proof.
  apply (import_starts_nothing {["PORT" := "abc"]} Spec.open_network "app").
  discriminate.
Defined.

Lemma status_by_path_and_method_witness :
  (status (Spec.answer ∅ (Spec.bare GET "//health")) = 200
     ↔ Spec.defined (normalize "//health") ∧ Spec.allowed GET)
  ∧ (status (Spec.answer ∅ (Spec.bare GET "//health")) = 404
     ↔ ¬ Spec.defined (normalize "//health"))
  ∧ (status (Spec.answer ∅ (Spec.bare GET "//health")) = 405
     ↔ Spec.defined (normalize "//health") ∧ ¬ Spec.allowed GET).
Proof.
  apply (status_by_path_and_method ∅ (Spec.bare GET "//health")).
  - discriminate.
  - intros [rest H]. discriminate H.
Defined.

Lemma other_methods_refused_witness :
  Spec.answer ∅ (Spec.bare POST "/health")
  = error_response 405 [GET; HEAD; OPTIONS].
Proof.
  apply (other_methods_refused ∅ (Spec.bare POST "/health")).
  - right; left; reflexivity.
  - intros [H | [H | H]]; discriminate H.
Defined.

Lemma head_mirrors_get_witness :
  status (Spec.answer ∅ (Spec.bare HEAD "/info"))
  = status (Spec.answer ∅ (Spec.loaded_request GET "/info"))
  ∧ content_type (Spec.answer ∅ (Spec.bare HEAD "/info"))
    = content_type (Spec.answer ∅ (Spec.loaded_request GET "/info"))
  ∧ data (Spec.answer ∅ (Spec.bare HEAD "/info")) = NoBody.
Proof.
  apply (head_mirrors_get ∅ (Spec.bare HEAD "/info")
           (Spec.loaded_request GET "/info"));
    [right; right; reflexivity | reflexivity ..].
Defined.

Lemma options_answered_by_framework_witness :
  Spec.answer ∅ (Spec.bare OPTIONS "/")
  = options_response [GET; HEAD; OPTIONS].
Proof.
  apply (options_answered_by_framework ∅ (Spec.bare OPTIONS "/"));
    [left; reflexivity | reflexivity].
Defined.

Lemma json_only_for_get_witness :
  (∃ obj, data (Spec.answer ∅ (Spec.bare GET "/info")) = JSON obj)
  ↔ GET = GET ∧ Spec.defined (normalize "/info").
Proof.
  apply (json_only_for_get ∅ (Spec.bare GET "/info")).
  intros [rest H]. discriminate H.
Defined.

End Instances.
